(** * Events resource of the REST service: query compiler and result mapper

    Shallow embedding of [manager_rest/rest/resources_v1/events.py].

    - Python values, dictionaries and exceptions;
    - [datetime.isoformat] and the slicing used to render timestamps;
    - the result mapper [_map_event_to_es];
    - the relational store, the generative [Query] object of the ORM and
      its execution;
    - the query compiler: [_apply_filters], [_apply_sort],
      [_apply_range_filters], [_build_select_query], [_build_count_query];
    - the orchestration of [_query_events]. *)

From stdpp Require Import gmap strings list fin_maps sorting.
From Stdlib Require Import ZArith Lia Ascii.

Open Scope Z_scope.

(** ** Exceptions and results *)

Inductive exception :=
  | BadParametersError (msg : string)
  | KeyError (key : string)
  | TypeError.

Inductive result (A : Type) :=
  | Ok (a : A)
  | Raise (e : exception).
Arguments Ok {A} a.
Arguments Raise {A} e.

Definition bind {A B} (r : result A) (k : A → result B) : result B :=
  match r with
  | Ok a => k a
  | Raise e => Raise e
  end.

Notation "x <~ r ;; k" := (bind r (fun x => k))
  (at level 100, r at next level, right associativity).

(** ** Timestamps *)

(** A naive [datetime.datetime] (no tzinfo), as returned for a timestamp
    column. *)
Record datetime := mkDatetime {
  year : Z; month : Z; day : Z;
  hour : Z; minute : Z; second : Z;
  microsecond : Z
}.

Global Instance datetime_eq_dec : EqDecision datetime.
Proof. solve_decision. Defined.

(** The ranges enforced by the [datetime] constructor. *)
Definition valid_datetime (d : datetime) : Prop :=
  1 <= year d <= 9999 ∧ 1 <= month d <= 12 ∧ 1 <= day d <= 31 ∧
  0 <= hour d < 24 ∧ 0 <= minute d < 60 ∧ 0 <= second d < 60 ∧
  0 <= microsecond d < 1000000.

Definition digit (n : Z) : ascii := ascii_of_nat (48 + Z.to_nat (n mod 10)).

(** ["%0wd" % n] for [0 <= n < 10^w]: exactly [w] decimal digits. *)
Fixpoint digits (w : nat) (n : Z) : string :=
  match w with
  | O => ""
  | S w' => digits w' (n / 10) +:+ String (digit n) ""
  end.

Definition isoformat_date (d : datetime) : string :=
  digits 4 (year d) +:+ "-" +:+ digits 2 (month d) +:+ "-" +:+ digits 2 (day d).

Definition isoformat_time (d : datetime) : string :=
  digits 2 (hour d) +:+ ":" +:+ digits 2 (minute d) +:+ ":" +:+ digits 2 (second d).

(** [datetime.isoformat()]: the fractional part is printed with six digits,
    and left out altogether when [microsecond] is 0. *)
Definition isoformat (d : datetime) : string :=
  isoformat_date d +:+ "T" +:+ isoformat_time d +:+
  (if microsecond d =? 0 then "" else "." +:+ digits 6 (microsecond d)).

(** The slice [s[:-k]]. *)
Definition slice_to_neg (k : nat) (s : string) : string :=
  String.substring 0 (String.length s - k) s.

(** ['{}Z'.format(value.isoformat()[:-3])] *)
Definition format_timestamp (d : datetime) : string :=
  slice_to_neg 3 (isoformat d) +:+ "Z".

(** ISO-8601 with millisecond precision and a [Z] suffix, sub-millisecond
    digits truncated: the rendering the specification asks for. *)
Definition iso8601_millis (d : datetime) : string :=
  isoformat_date d +:+ "T" +:+ isoformat_time d +:+ "." +:+
  digits 3 (microsecond d / 1000) +:+ "Z".

(** ** Values *)

(** A cell of a result row. *)
Inductive value :=
  | VNone
  | VInt (n : Z)
  | VStr (s : string)
  | VDatetime (d : datetime).

Global Instance value_eq_dec : EqDecision value.
Proof. solve_decision. Defined.

(** Python objects handled by the mapper: cells and (nested) dictionaries. *)
#[warnings="-register-all"]
Inductive pyval :=
  | PNone
  | PInt (n : Z)
  | PStr (s : string)
  | PDatetime (d : datetime)
  | PDict (m : gmap string pyval).

Definition to_py (v : value) : pyval :=
  match v with
  | VNone => PNone
  | VInt n => PInt n
  | VStr s => PStr s
  | VDatetime d => PDatetime d
  end.

(** [d[k]] *)
Definition getitem (d : gmap string pyval) (k : string) : result pyval :=
  match d !! k with
  | Some v => Ok v
  | None => Raise (KeyError k)
  end.

(** [del d[k]] *)
Definition delitem (d : gmap string pyval) (k : string) : result (gmap string pyval) :=
  match d !! k with
  | Some _ => Ok (delete k d)
  | None => Raise (KeyError k)
  end.

(** [v == s] for a string literal [s] *)
Definition py_eq_str (v : pyval) (s : string) : bool :=
  match v with
  | PStr s' => String.eqb s' s
  | _ => false
  end.

(** ** Result mapper *)

(** A row returned by the select query: a keyed tuple, labels with cells. *)
Abbreviation sql_row := (list (string * value)).

(** [{attr: getattr(sql_event, attr) for attr in sql_event.keys()}] *)
Definition row_to_dict (sql_event : sql_row) : gmap string pyval :=
  foldl (fun m kv => <[kv.1 := to_py kv.2]> m) ∅ sql_event.

Definition context_fields : list string :=
  ["deployment_id"; "operation"; "node_id"].

(** [{field: event[field] for field in context_fields}] *)
Fixpoint collect_fields (event : gmap string pyval) (fields : list string)
    : result (gmap string pyval) :=
  match fields with
  | [] => Ok ∅
  | f :: fs =>
      v <~ getitem event f ;;
      rest <~ collect_fields event fs ;;
      Ok (<[f := v]> rest)
  end.

(** [for field in fields: del event[field]] *)
Fixpoint delete_fields (event : gmap string pyval) (fields : list string)
    : result (gmap string pyval) :=
  match fields with
  | [] => Ok event
  | f :: fs => event' <~ delitem event f ;; delete_fields event' fs
  end.

(** [event['message']['arguments'] = None] *)
Definition set_message_arguments (event : gmap string pyval)
    : result (gmap string pyval) :=
  m <~ getitem event "message" ;;
  match m with
  | PDict md => Ok (<["message" := PDict (<["arguments" := PNone]> md)]> event)
  | _ => Raise TypeError
  end.

(** The body of the loop over [event.items()]. *)
Definition stringify_datetime (v : pyval) : pyval :=
  match v with
  | PDatetime d => PStr (format_timestamp d)
  | _ => v
  end.

(** [dicttoolz.keyfilter(lambda key: key in _include, event)] *)
Definition keyfilter (_include : list string) (event : gmap string pyval)
    : gmap string pyval :=
  filter (fun kv => kv.1 ∈ _include) event.

Definition _map_event_to_es (_include : option (list string)) (sql_event : sql_row)
    : result (gmap string pyval) :=
  let event := row_to_dict sql_event in
  ts <~ getitem event "timestamp" ;;
  let event := <["@timestamp" := ts]> event in
  msg <~ getitem event "message" ;;
  let event := <["message" := PDict {["text" := msg]}]> event in
  ctx <~ collect_fields event context_fields ;;
  let event := <["context" := PDict ctx]> event in
  event <~ delete_fields event context_fields ;;
  ty <~ getitem event "type" ;;
  event <~ (if py_eq_str ty "cloudify_event" then
              event <~ set_message_arguments event ;;
              event <~ delitem event "logger" ;;
              delitem event "level"
            else if py_eq_str ty "cloudify_log" then
              delitem event "event_type"
            else Ok event) ;;
  let event := stringify_datetime <$> event in
  Ok (match _include with
      | Some inc => keyfilter inc event
      | None => event
      end).

(** The column labels shared by the event and the log projection. *)
Definition unified_columns : list string :=
  ["timestamp"; "deployment_id"; "message"; "message_code"; "event_type";
   "operation"; "node_id"; "logger"; "level"; "type"].

Definition unified_row (row : sql_row) : Prop := row.*1 = unified_columns.

Definition sample_event_row : sql_row :=
  [("timestamp", VDatetime (mkDatetime 2024 1 2 3 4 5 123456));
   ("deployment_id", VStr "dep"); ("message", VStr "hello");
   ("message_code", VNone); ("event_type", VStr "workflow_started");
   ("operation", VNone); ("node_id", VNone);
   ("logger", VNone); ("level", VNone); ("type", VStr "cloudify_event")].


(** ** The relational store *)

(** Modelled from the spec: the ORM classes of
    [manager_rest.storage.resource_models] (not part of the sources at
    hand).  Their attributes are the ones of the data model of the
    specification, together with the keys the events module itself reads
    ([_execution_fk], [_storage_id], [_deployment_fk], [id]). *)
Inductive model := Event | Log | Execution | Deployment.

Global Instance model_eq_dec : EqDecision model.
Proof. solve_decision. Defined.

(** Modelled from the spec: an event, with the columns of the data model
    and the key of its execution. *)
Record EventRow := mkEvent {
  ev_timestamp : value; ev_message : value; ev_message_code : value;
  ev_event_type : value; ev_operation : value; ev_node_id : value;
  ev_execution_fk : Z
}.

(** Modelled from the spec: a log, with the columns of the data model and
    the key of its execution. *)
Record LogRow := mkLog {
  lg_timestamp : value; lg_message : value; lg_operation : value;
  lg_node_id : value; lg_logger : value; lg_level : value;
  lg_execution_fk : Z
}.

(** Modelled from the spec: an execution, with its identifier and the
    key of its deployment. *)
Record ExecutionRow := mkExecution {
  ex_storage_id : Z; ex_id : string; ex_deployment_fk : Z
}.

(** Modelled from the spec: a deployment, with its identifier. *)
Record DeploymentRow := mkDeployment {
  dp_storage_id : Z; dp_id : string
}.

Record store := mkStore {
  events : list EventRow;
  logs : list LogRow;
  executions : list ExecutionRow;
  deployments : list DeploymentRow
}.

Definition event_attrs (e : EventRow) : list (string * value) :=
  [("timestamp", ev_timestamp e); ("message", ev_message e);
   ("message_code", ev_message_code e); ("event_type", ev_event_type e);
   ("operation", ev_operation e); ("node_id", ev_node_id e);
   ("_execution_fk", VInt (ev_execution_fk e))].

Definition log_attrs (l : LogRow) : list (string * value) :=
  [("timestamp", lg_timestamp l); ("message", lg_message l);
   ("operation", lg_operation l); ("node_id", lg_node_id l);
   ("logger", lg_logger l); ("level", lg_level l);
   ("_execution_fk", VInt (lg_execution_fk l))].

Definition execution_attrs (x : ExecutionRow) : list (string * value) :=
  [("_storage_id", VInt (ex_storage_id x)); ("id", VStr (ex_id x));
   ("_deployment_fk", VInt (ex_deployment_fk x))].

Definition deployment_attrs (d : DeploymentRow) : list (string * value) :=
  [("_storage_id", VInt (dp_storage_id d)); ("id", VStr (dp_id d))].

(** Modelled from the spec: the attributes of each class, by name. *)
Definition attribute_names (m : model) : list string :=
  match m with
  | Event => ["timestamp"; "message"; "message_code"; "event_type";
              "operation"; "node_id"; "_execution_fk"]
  | Log => ["timestamp"; "message"; "operation"; "node_id"; "logger";
            "level"; "_execution_fk"]
  | Execution => ["_storage_id"; "id"; "_deployment_fk"]
  | Deployment => ["_storage_id"; "id"]
  end.

(** Modelled from the spec: what a mapped class has besides its columns,
    namely the attributes of every Python class and those that the
    declarative base of the object-relational mapper gives it. *)
Definition class_attributes : list string :=
  ["__base__"; "__bases__"; "__basicsize__"; "__call__"; "__class__";
   "__delattr__"; "__dict__"; "__dictoffset__"; "__doc__"; "__eq__";
   "__flags__"; "__format__"; "__ge__"; "__getattribute__"; "__gt__";
   "__hash__"; "__init__"; "__instancecheck__"; "__itemsize__"; "__le__";
   "__lt__"; "__module__"; "__mro__"; "__name__"; "__ne__"; "__new__";
   "__reduce__"; "__reduce_ex__"; "__repr__"; "__setattr__"; "__sizeof__";
   "__str__"; "__subclasscheck__"; "__subclasses__"; "__subclasshook__";
   "__weakref__"; "__weakrefoffset__"; "mro";
   "__mapper__"; "__table__"; "__tablename__"; "_decl_class_registry";
   "_sa_class_manager"; "metadata"; "query"; "query_class"].

(** [hasattr(model, field)]: true of a column and of any other attribute
    of the class. *)
Definition hasattr (m : model) (field : string) : bool :=
  bool_decide (field ∈ attribute_names m ++ class_attributes).

(** The kinds of value a column holds. *)
Inductive kind := KInteger | KText | KTimestamp.

Global Instance kind_eq_dec : EqDecision kind.
Proof. solve_decision. Defined.

Definition kind_of (v : value) : option kind :=
  match v with
  | VNone => None
  | VInt _ => Some KInteger
  | VStr _ => Some KText
  | VDatetime _ => Some KTimestamp
  end.

(** Modelled from the spec: the type of each column of the data model, a
    timestamp for [timestamp], a number for the keys, text for the rest.
    A name that is no column has none. *)
Definition column_kind (m : model) (field : string) : option kind :=
  if bool_decide (field ∈ attribute_names m) then
    Some (if bool_decide (field = "timestamp") then KTimestamp
          else if bool_decide (field ∈ ["_execution_fk"; "_storage_id";
                                        "_deployment_fk"])
               then KInteger
               else KText)
  else None.

Fixpoint assoc (k : string) (l : list (string * value)) : option value :=
  match l with
  | [] => None
  | (k', v) :: l' => if String.eqb k k' then Some v else assoc k l'
  end.

(** ** Queries *)

(** Column expressions: [Model.field], [literal_column(text)] and
    [func.count('*')]. *)
Inductive expr :=
  | Attr (m : model) (field : string)
  | LiteralColumn (text : string)
  | CountStar.

(** A selected column: its expression, the name it goes by in
    [query.column_descriptions], and whether that name is a label given
    with [label].  Only a label is a name of the column in the statement;
    an attribute without one is selected as [<table>_<column>]. *)
Record column := mkColumn {
  col_expr : expr; col_name : string; col_labelled : bool
}.

(** [getattr(model, field)] used as a selected column: named after the
    attribute. *)
Definition attr_column (m : model) (field : string) : column :=
  mkColumn (Attr m field) field false.
Definition literal_column (text : string) : column :=
  mkColumn (LiteralColumn text) text false.
Definition func_count : column := mkColumn CountStar "count_1" false.
(** [column.label(name)] *)
Definition label (c : column) (name : string) : column :=
  mkColumn (col_expr c) name true.

(** Filtering criteria: [a == b], [a.in_(vals)], [a >= bound] and
    [a <= bound], for attributes [a], [b] of the models. *)
Inductive criterion :=
  | CEq (m1 : model) (f1 : string) (m2 : model) (f2 : string)
  | CIn (m : model) (f : string) (vals : list string)
  | CGe (m : model) (f : string) (bound : value)
  | CLe (m : model) (f : string) (bound : value).

Inductive direction := Ascending | Descending.

(** [asc(field)] and [desc(field)] *)
Definition asc (field : string) : direction * string := (Ascending, field).
Definition desc (field : string) : direction * string := (Descending, field).

(** [bindparam(name)] *)
Inductive bindparam := BindParam (name : string).

(** The state of a generative [sqlalchemy.orm.query.Query]: selected
    entities, WHERE criteria, the two queries it is the UNION of (if made by
    [union]), ORDER BY keys, LIMIT and OFFSET. *)
#[warnings="-register-all"]
Inductive Query := mkQuery {
  entities : list column;
  criteria : list criterion;
  from_union : option (Query * Query);
  ordering : list (direction * string);
  limit_clause : option bindparam;
  offset_clause : option bindparam
}.

(** [db.session.query(columns...)] *)
Definition session_query (columns : list column) : Query :=
  mkQuery columns [] None [] None None.

(** [query.filter(criterion, ...)] *)
Definition Query_filter (q : Query) (cs : list criterion) : Query :=
  mkQuery (entities q) (criteria q ++ cs) (from_union q) (ordering q)
          (limit_clause q) (offset_clause q).

(** [query.order_by(key)] *)
Definition Query_order_by (q : Query) (key : direction * string) : Query :=
  mkQuery (entities q) (criteria q) (from_union q) (ordering q ++ [key])
          (limit_clause q) (offset_clause q).

(** [query.limit(b)] and [query.offset(b)] *)
Definition Query_limit (q : Query) (b : bindparam) : Query :=
  mkQuery (entities q) (criteria q) (from_union q) (ordering q)
          (Some b) (offset_clause q).
Definition Query_offset (q : Query) (b : bindparam) : Query :=
  mkQuery (entities q) (criteria q) (from_union q) (ordering q)
          (limit_clause q) (Some b).

(** [query.union(other)]: a query over the UNION of both.  Its
    [column_descriptions] are those of the first query; in the statement
    only the labels among them name a column (see [orderable]). *)
Definition Query_union (q other : Query) : Query :=
  mkQuery (entities q) [] (Some (q, other)) [] None None.

(** The names in [query.column_descriptions]. *)
Definition column_names (q : Query) : list string :=
  col_name <$> entities q.

(** ** Executing queries *)

(** One row of each table of the FROM clause. *)
Record tuple := mkTuple {
  t_event : option EventRow;
  t_log : option LogRow;
  t_execution : option ExecutionRow;
  t_deployment : option DeploymentRow
}.

Definition tuple_attr (t : tuple) (m : model) (f : string) : option value :=
  match m with
  | Event => e ← t_event t; assoc f (event_attrs e)
  | Log => l ← t_log t; assoc f (log_attrs l)
  | Execution => x ← t_execution t; assoc f (execution_attrs x)
  | Deployment => d ← t_deployment t; assoc f (deployment_attrs d)
  end.

Definition expr_models (e : expr) : list model :=
  match e with
  | Attr m _ => [m]
  | _ => []
  end.

Definition criterion_models (c : criterion) : list model :=
  match c with
  | CEq m1 _ m2 _ => [m1; m2]
  | CIn m _ _ | CGe m _ _ | CLe m _ _ => [m]
  end.

(** The FROM clause is derived from the query: every model that a selected
    column or a criterion mentions. *)
Definition from_models (cols : list column) (cs : list criterion) : list model :=
  (cols ≫= (fun c => expr_models (col_expr c))) ++ (cs ≫= criterion_models).

Definition table {A} (used : bool) (rows : list A) : list (option A) :=
  if used then Some <$> rows else [None].

(** The implicit cross join of the tables of the FROM clause. *)
Definition cross_join (s : store) (ms : list model) : list tuple :=
  e ← table (bool_decide (Event ∈ ms)) (events s);
  l ← table (bool_decide (Log ∈ ms)) (logs s);
  x ← table (bool_decide (Execution ∈ ms)) (executions s);
  d ← table (bool_decide (Deployment ∈ ms)) (deployments s);
  [mkTuple e l x d].

Definition datetime_key (d : datetime) : list Z :=
  [year d; month d; day d; hour d; minute d; second d; microsecond d].

Fixpoint list_compare (l1 l2 : list Z) : comparison :=
  match l1, l2 with
  | [], [] => Eq
  | [], _ :: _ => Lt
  | _ :: _, [] => Gt
  | x :: l1', y :: l2' =>
      match Z.compare x y with
      | Eq => list_compare l1' l2'
      | c => c
      end
  end.

Definition kind_rank (v : value) : Z :=
  match v with
  | VInt _ => 0
  | VStr _ => 1
  | VDatetime _ => 2
  | VNone => 3
  end.

(** The order of ORDER BY: numbers, texts (compared byte by byte) and
    timestamps in their own order, NULL after every other value. *)
Definition value_compare (a b : value) : comparison :=
  match a, b with
  | VInt x, VInt y => Z.compare x y
  | VStr x, VStr y => String.compare x y
  | VDatetime x, VDatetime y => list_compare (datetime_key x) (datetime_key y)
  | _, _ => Z.compare (kind_rank a) (kind_rank b)
  end.

(** A comparison in a WHERE clause is unknown, hence not satisfied, when
    an operand is NULL.  Operands of the same kind compare.  The store
    casts or refuses operands of different kinds, which is not modelled:
    such a comparison is not satisfied here, and what is proved of range
    filters is stated for bounds of the kind of their column
    ([range_filters_fit]). *)
Definition comparable (a b : value) : bool :=
  match a, b with
  | VInt _, VInt _ | VStr _, VStr _ | VDatetime _, VDatetime _ => true
  | _, _ => false
  end.

Definition sql_eq (a b : value) : bool :=
  comparable a b && bool_decide (value_compare a b = Eq).
Definition sql_ge (a b : value) : bool :=
  comparable a b && bool_decide (value_compare a b ≠ Lt).
Definition sql_le (a b : value) : bool :=
  comparable a b && bool_decide (value_compare a b ≠ Gt).

Definition holds (t : tuple) (c : criterion) : bool :=
  match c with
  | CEq m1 f1 m2 f2 =>
      match tuple_attr t m1 f1, tuple_attr t m2 f2 with
      | Some a, Some b => sql_eq a b
      | _, _ => false
      end
  | CIn m f vals =>
      match tuple_attr t m f with
      | Some a => bool_decide (a ∈ VStr <$> vals)
      | None => false
      end
  | CGe m f bound =>
      match tuple_attr t m f with
      | Some a => sql_ge a bound
      | None => false
      end
  | CLe m f bound =>
      match tuple_attr t m f with
      | Some a => sql_le a bound
      | None => false
      end
  end.

(** The rows of the cross join that satisfy every criterion. *)
Definition matching (s : store) (cols : list column) (cs : list criterion)
    : list tuple :=
  filter (fun t => Forall (fun c => holds t c) cs)
         (cross_join s (from_models cols cs)).

(** The text of a literal column: [NULL] or a quoted string. *)
Definition eval_literal (text : string) : option value :=
  if String.eqb text "NULL" then Some VNone
  else match text with
       | String "'" rest =>
           match String.get (String.length rest - 1) rest with
           | Some "'"%char => Some (VStr (slice_to_neg 1 rest))
           | _ => None
           end
       | _ => None
       end.

Definition eval_expr (t : tuple) (e : expr) : option value :=
  match e with
  | Attr m f => tuple_attr t m f
  | LiteralColumn text => eval_literal text
  | CountStar => None
  end.

Definition project (cols : list column) (t : tuple) : option (list value) :=
  mapM (fun c => eval_expr t (col_expr c)) cols.

Definition is_count (c : column) : bool :=
  match col_expr c with
  | CountStar => true
  | _ => false
  end.

(** SELECT cols FROM ... WHERE cs.  With [count] columns only, one row
    holding the number of matching rows; mixing them with plain columns is
    an error ([None]). *)
Definition select_rows (s : store) (cols : list column) (cs : list criterion)
    : option (list (list value)) :=
  if existsb is_count cols then
    if forallb is_count cols
    then Some [(fun _ => VInt (Z.of_nat (length (matching s cols cs)))) <$> cols]
    else None
  else mapM (project cols) (matching s cols cs).

Fixpoint index_of (name : string) (names : list string) : option nat :=
  match names with
  | [] => None
  | n :: names' =>
      if String.eqb name n then Some O else S <$> index_of name names'
  end.

(** An ORDER BY key names an output column; an unknown name is an error. *)
Definition resolve_key (names : list string) (key : direction * string)
    : option (direction * nat) :=
  i ← index_of key.2 names; Some (key.1, i).

Definition cell (r : list value) (i : nat) : value := default VNone (r !! i).

Definition directed (d : direction) (c : comparison) : comparison :=
  match d with
  | Ascending => c
  | Descending => CompOpp c
  end.

(** ORDER BY k1, k2, ...: the first key decides, the next ones break ties. *)
Fixpoint row_compare (keys : list (direction * nat)) (r1 r2 : list value)
    : comparison :=
  match keys with
  | [] => Eq
  | (d, i) :: keys' =>
      match directed d (value_compare (cell r1 i) (cell r2 i)) with
      | Eq => row_compare keys' r1 r2
      | c => c
      end
  end.

Definition row_le (keys : list (direction * nat)) (r1 r2 : list value) : Prop :=
  row_compare keys r1 r2 ≠ Gt.

Definition sort_rows (keys : list (direction * nat)) (rows : list (list value))
    : list (list value) :=
  merge_sort (row_le keys) rows.

(** The largest value of the 64-bit integers of the store. *)
Definition max_bigint : Z := 9223372036854775807.

(** The value bound to a LIMIT or OFFSET parameter when the query is run:
    it has to be given, not negative and within the 64-bit integers. *)
Definition resolve_param (params : gmap string Z) (b : bindparam) : option nat :=
  let 'BindParam name := b in
  n ← params !! name;
  if decide (0 <= n <= max_bigint) then Some (Z.to_nat n) else None.

(** Whether an ORDER BY key, resolved to a column of the query, names a
    column of the statement.  The columns of a UNION go by the labels of
    its first query: a column without a label cannot be named. *)
Definition orderable (cols : list column) (in_union : bool)
    (key : direction * nat) : bool :=
  negb in_union ||
  match cols !! key.2 with
  | Some c => col_labelled c
  | None => false
  end.

Definition is_union (fu : option (Query * Query)) : bool :=
  match fu with
  | Some _ => true
  | None => false
  end.

Definition apply_offset (params : gmap string Z) (b : option bindparam)
    (rows : list (list value)) : option (list (list value)) :=
  match b with
  | None => Some rows
  | Some b => n ← resolve_param params b; Some (drop n rows)
  end.

Definition apply_limit (params : gmap string Z) (b : option bindparam)
    (rows : list (list value)) : option (list (list value)) :=
  match b with
  | None => Some rows
  | Some b => n ← resolve_param params b; Some (take n rows)
  end.

(** Running a query with bound parameters.  [None] stands for an error
    of the store.  UNION is the set union of SQL: duplicate rows are
    removed.  An ORDER BY key that names no column of the statement is an
    error. *)
Fixpoint execute (s : store) (params : gmap string Z) (q : Query)
    : option (list (list value)) :=
  match q with
  | mkQuery cols cs fu ord lim off =>
      rows ← match fu with
             | None => select_rows s cols cs
             | Some (q1, q2) =>
                 r1 ← execute s params q1;
                 r2 ← execute s params q2;
                 match cs with
                 | [] =>
                     if Nat.eqb (length (entities q1)) (length (entities q2))
                     then Some (remove_dups (r1 ++ r2))
                     else None
                 | _ :: _ => None
                 end
             end;
      keys ← mapM (resolve_key (col_name <$> cols)) ord;
      if forallb (orderable cols (is_union fu)) keys then
        rows ← apply_offset params off (sort_rows keys rows);
        apply_limit params lim rows
      else None
  end.

(** The rows a query sorts and windows: those of its SELECT, or of the
    UNION it is made of. *)
Definition body_rows (s : store) (params : gmap string Z) (q : Query)
    : option (list (list value)) :=
  match from_union q with
  | None => select_rows s (entities q) (criteria q)
  | Some (q1, q2) =>
      r1 ← execute s params q1;
      r2 ← execute s params q2;
      match criteria q with
      | [] =>
          if Nat.eqb (length (entities q1)) (length (entities q2))
          then Some (remove_dups (r1 ++ r2))
          else None
      | _ :: _ => None
      end
  end.

(** [query.params(...).all()]: the rows as keyed tuples. *)
Definition Query_all (s : store) (params : gmap string Z) (q : Query)
    : option (list sql_row) :=
  rows ← execute s params q;
  Some (fmap (M:=list) (zip (column_names q)) rows).

(** The two shapes of the count query:
    [db.session.query(q.subquery().c.name)] and
    [db.session.query(q1.subquery().c.name1 + q2.subquery().c.name2)]. *)
Inductive CountQuery :=
  | SubqueryColumn (q : Query) (name : string)
  | SubqueryColumnSum (q1 : Query) (name1 : string) (q2 : Query) (name2 : string).

Definition subquery_column (s : store) (params : gmap string Z) (q : Query)
    (name : string) : option (list value) :=
  rows ← execute s params q;
  i ← index_of name (column_names q);
  Some (fmap (M:=list) (fun r => cell r i) rows).

Definition sql_add (ab : value * value) : option value :=
  match ab with
  | (VInt x, VInt y) => Some (VInt (x + y))
  | (VNone, _) | (_, VNone) => Some VNone
  | _ => None
  end.

Definition count_rows (s : store) (params : gmap string Z) (cq : CountQuery)
    : option (list value) :=
  match cq with
  | SubqueryColumn q name => subquery_column s params q name
  | SubqueryColumnSum q1 name1 q2 name2 =>
      c1 ← subquery_column s params q1 name1;
      c2 ← subquery_column s params q2 name2;
      mapM sql_add (a ← c1; b ← c2; [(a, b)])
  end.

(** [query.params(...).scalar()]: the first column of the only row;
    [None] (here [VNone]) without rows, an error with several. *)
Definition Query_scalar (s : store) (params : gmap string Z) (cq : CountQuery)
    : option value :=
  rows ← count_rows s params cq;
  match rows with
  | [] => Some VNone
  | [v] => Some v
  | _ => None
  end.

(** ** The query compiler *)

(** [s.lstrip(c)] for a single character [c]: every leading [c] goes. *)
Fixpoint lstrip (c : ascii) (s : string) : string :=
  match s with
  | String a s' => if Ascii.eqb a c then lstrip c s' else s
  | EmptyString => s
  end.

Definition DEFAULT_SEARCH_SIZE : Z := 10000.

Definition ALLOWED_FILTERS : list (model * string) :=
  [(Execution, "execution_id"); (Deployment, "deployment_id")].

Definition _apply_filters (query : Query) (filters : gmap string (list string))
    : Query :=
  foldl (fun query mf =>
           match filters !! mf.2 with
           | Some vals => Query_filter query [CIn mf.1 "id" vals]
           | None => query
           end)
        query ALLOWED_FILTERS.

(** The loop of [_apply_sort] over [sort.items()]. *)
Fixpoint apply_sort_items (column_names : list string) (query : Query)
    (items : list (string * string)) : result Query :=
  match items with
  | [] => Ok query
  | (field, order) :: items' =>
      let field := lstrip "@" field in
      if bool_decide (field ∈ column_names) then
        let order_func := if String.eqb order "asc" then asc else desc in
        apply_sort_items column_names (Query_order_by query (order_func field)) items'
      else
        Raise (BadParametersError ("Unknown field to sort by: " +:+ field))
  end.

(** [sort] is given by its items, in the order the dictionary yields
    them. *)
Definition _apply_sort (query : Query) (sort : list (string * string))
    : result Query :=
  apply_sort_items (column_names query) query sort.

(** [getattr(model, field) >= bound] and [<= bound] are criteria on the
    column [field].  For an attribute of the class that is no column the
    comparison is one of Python objects, with no cell of a row behind it:
    such a criterion holds of no row here, and what is proved of range
    filters is stated for bounds on columns ([range_filters_fit]). *)
Definition _apply_range_filter (query : Query) (m : model) (field : string)
    (range_filter : gmap string value) : Query :=
  let query :=
    match range_filter !! "from" with
    | Some bound => Query_filter query [CGe m field bound]
    | None => query
    end in
  match range_filter !! "to" with
  | Some bound => Query_filter query [CLe m field bound]
  | None => query
  end.

Fixpoint _apply_range_filters (query : Query) (m : model)
    (range_filters : list (string * gmap string value)) : result Query :=
  match range_filters with
  | [] => Ok query
  | (field, range_filter) :: rest =>
      let field := lstrip "@" field in
      if hasattr m field then
        _apply_range_filters (_apply_range_filter query m field range_filter) m rest
      else
        Raise (BadParametersError ("Unknown field to filter by range: " +:+ field))
  end.

(** The [filters] argument: any object, possibly not a dictionary. *)
Inductive filters_arg :=
  | NotADict
  | FiltersDict (d : gmap string (list string)).

Record pagination := mkPagination { pg_size : Z; pg_offset : Z }.

Definition events_columns : list column :=
  [label (attr_column Event "timestamp") "timestamp";
   label (attr_column Deployment "id") "deployment_id";
   attr_column Event "message";
   attr_column Event "message_code";
   attr_column Event "event_type";
   attr_column Event "operation";
   attr_column Event "node_id";
   label (literal_column "NULL") "logger";
   label (literal_column "NULL") "level";
   label (literal_column "'cloudify_event'") "type"].

Definition logs_columns : list column :=
  [label (attr_column Log "timestamp") "timestamp";
   label (attr_column Deployment "id") "deployment_id";
   attr_column Log "message";
   label (literal_column "NULL") "message_code";
   label (literal_column "NULL") "event_type";
   attr_column Log "operation";
   attr_column Log "node_id";
   attr_column Log "logger";
   attr_column Log "level";
   label (literal_column "'cloudify_log'") "type"].

(** [m._execution_fk == Execution._storage_id,
     Execution._deployment_fk == Deployment._storage_id] *)
Definition ownership (m : model) : list criterion :=
  [CEq m "_execution_fk" Execution "_storage_id";
   CEq Execution "_deployment_fk" Deployment "_storage_id"].

Definition _build_select_query (filters : filters_arg) (pagination : pagination)
    (sort : list (string * string))
    (range_filters : list (string * gmap string value)) : result Query :=
  match filters with
  | NotADict => Raise (BadParametersError "Filter by type is expected")
  | FiltersDict d =>
    match d !! "type" with
    | None => Raise (BadParametersError "Filter by type is expected")
    | Some types =>
      if negb (bool_decide ("cloudify_event" ∈ types)) then
        Raise (BadParametersError
                 "At least `type=cloudify_event` filter is expected")
      else
        let query := Query_filter (session_query events_columns) (ownership Event) in
        let query := _apply_filters query d in
        query <~ _apply_range_filters query Event range_filters ;;
        query <~ (if bool_decide ("cloudify_log" ∈ types) then
                    let logs_query :=
                      Query_filter (session_query logs_columns) (ownership Log) in
                    let logs_query := _apply_filters logs_query d in
                    logs_query <~ _apply_range_filters logs_query Log range_filters ;;
                    Ok (Query_union query logs_query)
                  else Ok query) ;;
        query <~ _apply_sort query sort ;;
        Ok (Query_offset (Query_limit query (BindParam "limit"))
                         (BindParam "offset"))
    end
  end.

Definition count_columns : list column := [label func_count "count"].

Definition _build_count_query (filters : filters_arg)
    (range_filters : list (string * gmap string value)) : result CountQuery :=
  match filters with
  | NotADict => Raise (BadParametersError "Filter by type is expected")
  | FiltersDict d =>
    match d !! "type" with
    | None => Raise (BadParametersError "Filter by type is expected")
    | Some types =>
      if negb (bool_decide ("cloudify_event" ∈ types)) then
        Raise (BadParametersError
                 "At least `type=cloudify_event` filter is expected")
      else
        let events_query :=
          Query_filter (session_query count_columns) (ownership Event) in
        let events_query := _apply_filters events_query d in
        events_query <~ _apply_range_filters events_query Event range_filters ;;
        if bool_decide ("cloudify_log" ∈ types) then
          let logs_query :=
            Query_filter (session_query count_columns) (ownership Log) in
          let logs_query := _apply_filters logs_query d in
          logs_query <~ _apply_range_filters logs_query Log range_filters ;;
          Ok (SubqueryColumnSum events_query "count" logs_query "count")
        else
          Ok (SubqueryColumn events_query "count")
    end
  end.

(** ** Orchestration *)

(** What a request leaves behind: the statements run against the store, in
    order, and how the call ended. *)
Inductive statement :=
  | CountStatement (q : CountQuery)
  | SelectStatement (q : Query).

Inductive outcome (A : Type) :=
  | Returned (a : A)
  | Raised (e : exception)
  | StoreError.
Arguments Returned {A} a.
Arguments Raised {A} e.
Arguments StoreError {A}.

(** [{'hits': {'hits': [{'_source': event}, ...], 'total': total}}] *)
Record response := mkResponse {
  hits : list (gmap string pyval);
  total : value
}.

(** [[self._map_event_to_es(_include, event) for event in rows]] *)
Fixpoint map_events (_include : option (list string)) (rows : list sql_row)
    : result (list (gmap string pyval)) :=
  match rows with
  | [] => Ok []
  | row :: rows' =>
      event <~ _map_event_to_es _include row ;;
      events <~ map_events _include rows' ;;
      Ok (event :: events)
  end.

(** The second half of [_query_events], from the bound parameters on, for
    given filters, pagination, sort and range filters. *)
Definition run_queries (s : store) (filters : filters_arg)
    (pagination : pagination) (sort : list (string * string))
    (range_filters : list (string * gmap string value))
    (_include : option (list string)) : list statement * outcome response :=
  let params : gmap string Z :=
    <["offset" := pg_offset pagination]> {["limit" := pg_size pagination]} in
  match _build_count_query filters range_filters with
  | Raise e => ([], Raised e)
  | Ok count_query =>
    match Query_scalar s params count_query with
    | None => ([CountStatement count_query], StoreError)
    | Some total =>
      match _build_select_query filters pagination sort range_filters with
      | Raise e => ([CountStatement count_query], Raised e)
      | Ok select_query =>
        let trace := [CountStatement count_query; SelectStatement select_query] in
        match Query_all s params select_query with
        | None => (trace, StoreError)
        | Some rows =>
          match map_events _include rows with
          | Raise e => (trace, Raised e)
          | Ok events => (trace, Returned (mkResponse events total))
          end
        end
      end
    end
  end.

(** The parts of the request body that [_query_events] reads: whether
    [query.bool] has a [should] clause, the execution id under
    [must[0].match], [size] (optional), [from] and the items of the sort
    dictionary built from [sort]. *)
Record request := mkRequest {
  rq_should : bool;
  rq_execution_id : string;
  rq_size : option Z;
  rq_from : Z;
  rq_sort : list (string * string)
}.

Definition _query_events (s : store) (rq : request)
    : list statement * outcome response :=
  let filters : gmap string (list string) :=
    if rq_should rq
    then {["type" := ["cloudify_event"; "cloudify_log"]]}
    else {["type" := ["cloudify_event"]]} in
  let filters := <["execution_id" := [rq_execution_id rq]]> filters in
  let pagination :=
    mkPagination (default DEFAULT_SEARCH_SIZE (rq_size rq)) (rq_from rq) in
  run_queries s (FiltersDict filters) pagination (rq_sort rq) [] None.

(** ** Expected shapes of the mapped record *)

(** The cell of a keyed tuple under a label, as the Python object the
    mapper sees. *)
Definition row_cell (row : sql_row) (k : string) : pyval :=
  to_py (default VNone (assoc k row)).

Definition unified (ts dep msg code et op node lg lv ty : value) : sql_row :=
  [("timestamp", ts); ("deployment_id", dep); ("message", msg);
   ("message_code", code); ("event_type", et); ("operation", op);
   ("node_id", node); ("logger", lg); ("level", lv); ("type", ty)].

Definition context_record (dep op node : pyval) : pyval :=
  PDict (list_to_map
           [("deployment_id", dep); ("operation", op); ("node_id", node)]).

(** The record of an event row before timestamps are rendered. *)
Definition event_record (ts dep msg code et op node ty : pyval)
    : gmap string pyval :=
  list_to_map
    [("timestamp", ts); ("@timestamp", ts);
     ("message", PDict (list_to_map [("text", msg); ("arguments", PNone)]));
     ("message_code", code); ("event_type", et);
     ("context", context_record dep op node); ("type", ty)].

(** The record of a log row before timestamps are rendered. *)
Definition log_record (ts dep msg code op node lg lv ty : pyval)
    : gmap string pyval :=
  list_to_map
    [("timestamp", ts); ("@timestamp", ts);
     ("message", PDict (list_to_map [("text", msg)]));
     ("message_code", code);
     ("context", context_record dep op node);
     ("logger", lg); ("level", lv); ("type", ty)].

(** The record of a row with any other tag. *)
Definition untyped_record (ts dep msg code et op node lg lv ty : pyval)
    : gmap string pyval :=
  list_to_map
    [("timestamp", ts); ("@timestamp", ts);
     ("message", PDict (list_to_map [("text", msg)]));
     ("message_code", code); ("event_type", et);
     ("context", context_record dep op node);
     ("logger", lg); ("level", lv); ("type", ty)].

(** The event row of the specification's example, and the same row on a
    whole second. *)
Definition whole_second_row : sql_row :=
  [("timestamp", VDatetime (mkDatetime 2024 1 2 3 4 5 0));
   ("deployment_id", VStr "dep"); ("message", VStr "hello");
   ("message_code", VNone); ("event_type", VStr "workflow_started");
   ("operation", VNone); ("node_id", VNone);
   ("logger", VNone); ("level", VNone); ("type", VStr "cloudify_event")].

Definition sample_log_row : sql_row :=
  [("timestamp", VDatetime (mkDatetime 2024 1 2 3 4 5 123456));
   ("deployment_id", VStr "dep"); ("message", VStr "hello");
   ("message_code", VNone); ("event_type", VNone);
   ("operation", VNone); ("node_id", VStr "vm_1");
   ("logger", VStr "ctx"); ("level", VStr "info");
   ("type", VStr "cloudify_log")].

(** ** What the compiler is expected to build *)

(** The IN-predicates of the filters that are present. *)
Definition filter_criteria (filters : gmap string (list string))
    : list criterion :=
  match filters !! "execution_id" with
  | Some vals => [CIn Execution "id" vals]
  | None => []
  end ++
  match filters !! "deployment_id" with
  | Some vals => [CIn Deployment "id" vals]
  | None => []
  end.

(** The closed interval of one range filter. *)
Definition bound_criteria (m : model) (field : string)
    (range_filter : gmap string value) : list criterion :=
  match range_filter !! "from" with
  | Some bound => [CGe m field bound]
  | None => []
  end ++
  match range_filter !! "to" with
  | Some bound => [CLe m field bound]
  | None => []
  end.

Definition range_criteria (m : model)
    (range_filters : list (string * gmap string value)) : list criterion :=
  range_filters ≫= (fun frf => bound_criteria m (lstrip "@" frf.1) frf.2).

(** The first entry of the range filters whose field the model lacks. *)
Definition unrecognized (m : model)
    (range_filters : list (string * gmap string value)) : option string :=
  head (filter (fun f => ¬ hasattr m f)
               ((fun frf => lstrip "@" frf.1) <$> range_filters)).

(** The ORDER BY keys of a sort specification. *)
Definition sort_keys (sort : list (string * string))
    : list (direction * string) :=
  (fun fo => (if decide (fo.2 = "asc") then Ascending else Descending,
              lstrip "@" fo.1)) <$> sort.

(** The first sort entry whose field is not among the column names. *)
Definition unknown_sort_field (names : list string)
    (sort : list (string * string)) : option string :=
  head (filter (fun f => f ∉ names) ((fun fo => lstrip "@" fo.1) <$> sort)).

(** The names of the columns that carry a label: the names by which the
    rows of a UNION led by these columns can be ordered. *)
Definition labelled_names (cols : list column) : list string :=
  col_name <$> filter (fun c => col_labelled c = true) cols.

(** A bound, when present, is a value of the kind of the column. *)
Definition bound_fits (m : model) (field : string) (bound : option value)
    : bool :=
  match bound with
  | None => true
  | Some b =>
      match kind_of b with
      | Some k => bool_decide (column_kind m field = Some k)
      | None => false
      end
  end.

(** Range filters that the model accepts and whose bounds are of the kind
    of their column. *)
Definition range_filters_fit (m : model)
    (range_filters : list (string * gmap string value)) : bool :=
  forallb (fun frf =>
             let field := lstrip "@" frf.1 in
             hasattr m field &&
             bound_fits m field (frf.2 !! "from") &&
             bound_fits m field (frf.2 !! "to"))
          range_filters.

Definition with_ordering (q : Query) (keys : list (direction * string))
    : Query :=
  mkQuery (entities q) (criteria q) (from_union q) keys
          (limit_clause q) (offset_clause q).

(** One side of the selection: a projection of a model, joined to its
    execution and deployment, filtered and range-filtered. *)
Definition source_query (cols : list column) (m : model)
    (filters : gmap string (list string))
    (range_filters : list (string * gmap string value)) : Query :=
  mkQuery cols
          (ownership m ++ filter_criteria filters ++ range_criteria m range_filters)
          None [] None None.

(** Sorting and windowing of the final selection. *)
Definition select_plan (q : Query) (sort : list (string * string)) : Query :=
  Query_offset
    (Query_limit (with_ordering q (ordering q ++ sort_keys sort))
                 (BindParam "limit"))
    (BindParam "offset").

(** The cells of an event and of a log in the unified shape. *)
Definition event_row (e : EventRow) (d : DeploymentRow) : list value :=
  [ev_timestamp e; VStr (dp_id d); ev_message e; ev_message_code e;
   ev_event_type e; ev_operation e; ev_node_id e; VNone; VNone;
   VStr "cloudify_event"].

Definition log_row (l : LogRow) (d : DeploymentRow) : list value :=
  [lg_timestamp l; VStr (dp_id d); lg_message l; VNone; VNone;
   lg_operation l; lg_node_id l; lg_logger l; lg_level l;
   VStr "cloudify_log"].

(** A [filters] argument that fails the validation of the type filter. *)
Definition invalid_type_filter (filters : filters_arg) : Prop :=
  match filters with
  | NotADict => True
  | FiltersDict d =>
      match d !! "type" with
      | None => True
      | Some types => "cloudify_event" ∉ types
      end
  end.

(** The parameters [_query_events] binds. *)
Definition bound_params (p : pagination) : gmap string Z :=
  <["offset" := pg_offset p]> {["limit" := pg_size p]}.

Definition is_event_row (r : list value) : Prop := ∃ e d, r = event_row e d.
Definition is_log_row (r : list value) : Prop := ∃ l d, r = log_row l d.

(** The number of rows of a model that the filters and range filters let
    through, and the total a request is expected to report. *)
Definition count_of (s : store) (m : model) (d : gmap string (list string))
    (rfs : list (string * gmap string value)) : Z :=
  Z.of_nat (length (matching s count_columns
                      (criteria (source_query count_columns m d rfs)))).

Definition expected_total (s : store) (d : gmap string (list string))
    (types : list string) (rfs : list (string * gmap string value)) : Z :=
  count_of s Event d rfs +
  (if decide ("cloudify_log" ∈ types) then count_of s Log d rfs else 0).

(** ** Sample inputs *)

Definition sample_range_filters : list (string * gmap string value) :=
  [("@timestamp",
    <["to" := VDatetime (mkDatetime 2024 1 31 0 0 0 0)]>
      {["from" := VDatetime (mkDatetime 2024 1 1 0 0 0 0)]})].

Definition bad_range_filters : list (string * gmap string value) :=
  [("@timestamp", {["from" := VDatetime (mkDatetime 2024 1 1 0 0 0 0)]});
   ("logger", ∅)].

Definition events_select : Query :=
  Query_filter (session_query events_columns) (ownership Event).

Definition sample_sort : list (string * string) :=
  [("@timestamp", "desc"); ("deployment_id", "asc")].

Definition bad_sort : list (string * string) :=
  [("@timestamp", "desc"); ("execution_id", "asc")].

(** Directions of every sort, an ascending entry first. *)
Definition mixed_directions_sort : list (string * string) :=
  [("@timestamp", "asc"); ("type", "DESC"); ("level", "");
   ("deployment_id", "asc"); ("message", "ascending")].

Definition odd_directions_sort : list (string * string) :=
  [("timestamp", "DESC"); ("@timestamp", ""); ("type", "ascending");
   ("level", "desc")].

(** A store with two deployments, one execution in each, two events that
    agree on every column, a third event and a log. *)
Definition sample_timestamp : value :=
  VDatetime (mkDatetime 2024 1 2 3 4 5 123456).

Definition later_timestamp : value :=
  VDatetime (mkDatetime 2024 1 2 3 4 6 500000).

Definition sample_store : store :=
  mkStore
    [mkEvent sample_timestamp (VStr "Starting") VNone (VStr "workflow_started")
             VNone VNone 1;
     mkEvent sample_timestamp (VStr "Starting") VNone (VStr "workflow_started")
             VNone VNone 1;
     mkEvent later_timestamp (VStr "Other") VNone (VStr "workflow_started")
             VNone VNone 2]
    [mkLog later_timestamp (VStr "Creating") (VStr "create") (VStr "vm_1")
           (VStr "ctx") (VStr "info") 1]
    [mkExecution 1 "exec_1" 10; mkExecution 2 "exec_2" 20]
    [mkDeployment 10 "dep_1"; mkDeployment 20 "dep_2"].

(** Execution [exec_1] belongs to [dep_1], not to [dep_2]. *)
Definition mismatched_filters : gmap string (list string) :=
  <["deployment_id" := ["dep_2"]]>
    (<["execution_id" := ["exec_1"]]>
       {["type" := ["cloudify_event"; "cloudify_log"]]}).

Definition both_types_filters : gmap string (list string) :=
  <["execution_id" := ["exec_1"]]>
    {["type" := ["cloudify_event"; "cloudify_log"]]}.

Definition events_only_filters : gmap string (list string) :=
  <["execution_id" := ["exec_1"]]> {["type" := ["cloudify_event"]]}.

(** Requests for the events and logs, and for the events only, of
    [exec_1]. *)
Definition both_types_request : request :=
  mkRequest true "exec_1" None 0 [("@timestamp", "asc")].

Definition events_only_request : request :=
  mkRequest false "exec_1" None 0 [("@timestamp", "asc")].

(** The total and the number of hits of a response. *)
Definition response_summary (o : outcome response) : option (value * nat) :=
  match o with
  | Returned r => Some (total r, length (hits r))
  | _ => None
  end.

(** ** Labels the mapper needs *)

(** The labels the mapper reads from every row, in the order in which it
    reads them. *)
Definition required_labels : list string :=
  ["timestamp"; "message"; "deployment_id"; "operation"; "node_id"; "type"].

(** The labels it deletes for the tag found under ['type']. *)
Definition tag_labels (ty : option pyval) : list string :=
  match ty with
  | Some ty =>
      if py_eq_str ty "cloudify_event" then ["logger"; "level"]
      else if py_eq_str ty "cloudify_log" then ["event_type"]
      else []
  | None => []
  end.

Definition needed_labels (row : sql_row) : list string :=
  required_labels ++ tag_labels (row_to_dict row !! "type").

(** The first of the labels that the row does not have. *)
Definition first_missing (labels : list string) (row : sql_row)
    : option string :=
  head (filter (fun k => k ∉ row.*1) labels).

(** A row without the node id, and a log row without its event type. *)
Definition row_without_node_id : sql_row :=
  [("timestamp", VDatetime (mkDatetime 2024 1 2 3 4 5 123456));
   ("deployment_id", VStr "dep"); ("message", VStr "hello");
   ("operation", VNone); ("type", VStr "cloudify_event")].

Definition log_row_without_event_type : sql_row :=
  [("timestamp", VDatetime (mkDatetime 2024 1 2 3 4 5 123456));
   ("deployment_id", VStr "dep"); ("message", VStr "hello");
   ("operation", VNone); ("node_id", VNone);
   ("logger", VStr "ctx"); ("level", VStr "info");
   ("type", VStr "cloudify_log")].

(** The labels the mapper writes, moves or may delete. *)
Definition restructured_labels : list string :=
  ["@timestamp"; "message"; "context"; "deployment_id"; "operation";
   "node_id"; "logger"; "level"; "event_type"].

Definition row_with_extra_column : sql_row :=
  sample_event_row ++
  [("reported_timestamp", VDatetime (mkDatetime 2024 1 2 3 4 6 500000))].

Definition node_id_filters : gmap string (list string) :=
  <["node_id" := ["vm_1"]]> both_types_filters.

Definition event_only_range_filters : list (string * gmap string value) :=
  [("event_type", {["from" := VStr "a"]})].

(** ** Rows selected from the store *)

(** The attributes of a row are within every range filter. *)
Definition in_range (attrs : list (string * value))
    (rfs : list (string * gmap string value)) : Prop :=
  ∀ f rf, (f, rf) ∈ rfs →
    (∀ b, rf !! "from" = Some b →
          ∃ v, assoc (lstrip "@" f) attrs = Some v ∧ sql_ge v b) ∧
    (∀ b, rf !! "to" = Some b →
          ∃ v, assoc (lstrip "@" f) attrs = Some v ∧ sql_le v b).

(** Execution [x] is the one a row points to, [dp] is its deployment, and
    both pass the filters that are present. *)
Definition owned_by (s : store) (d : gmap string (list string))
    (execution_fk : Z) (x : ExecutionRow) (dp : DeploymentRow) : Prop :=
  x ∈ executions s ∧ dp ∈ deployments s ∧
  execution_fk = ex_storage_id x ∧
  ex_deployment_fk x = dp_storage_id dp ∧
  (∀ xs, d !! "execution_id" = Some xs → ex_id x ∈ xs) ∧
  (∀ ys, d !! "deployment_id" = Some ys → dp_id dp ∈ ys).

Definition selected_event (s : store) (d : gmap string (list string))
    (rfs : list (string * gmap string value)) (r : list value) : Prop :=
  ∃ e x dp, e ∈ events s ∧ owned_by s d (ev_execution_fk e) x dp ∧
            in_range (event_attrs e) rfs ∧ r = event_row e dp.

Definition selected_log (s : store) (d : gmap string (list string))
    (rfs : list (string * gmap string value)) (r : list value) : Prop :=
  ∃ l x dp, l ∈ logs s ∧ owned_by s d (lg_execution_fk l) x dp ∧
            in_range (log_attrs l) rfs ∧ r = log_row l dp.

(** The shape of a hit made from an event and from a log. *)
Definition is_event_hit (h : gmap string pyval) : Prop :=
  h !! "type" = Some (PStr "cloudify_event") ∧
  h !! "logger" = None ∧ h !! "level" = None ∧
  ∃ md, h !! "message" = Some (PDict md) ∧ md !! "arguments" = Some PNone.

Definition is_log_hit (h : gmap string pyval) : Prop :=
  h !! "type" = Some (PStr "cloudify_log") ∧
  h !! "event_type" = None ∧
  is_Some (h !! "logger") ∧ is_Some (h !! "level").

(** More sample inputs. *)
Definition empty_id_filters : gmap string (list string) :=
  <["execution_id" := []]> {["type" := ["cloudify_event"; "cloudify_log"]]}.

Definition inverted_range_filters : list (string * gmap string value) :=
  [("@timestamp",
    <["to" := VDatetime (mkDatetime 2024 1 1 0 0 0 0)]>
      {["from" := VDatetime (mkDatetime 2024 1 31 0 0 0 0)]})].


(** A request for events and logs sorted by a column without a label. *)
Definition message_sort_request : request :=
  mkRequest true "exec_1" None 0 [("@timestamp", "asc"); ("message", "asc")].

Definition unknown_execution_request : request :=
  mkRequest true "exec_9" None 0 [("@timestamp", "asc")].

(** * Properties *)

(** ** Strings and timestamps *)

Lemma string_app_cons (x : ascii) (a b : string) :
  String x a +:+ b = String x (a +:+ b).
Proof. reflexivity. Qed.

Lemma string_app_nil_l (a : string) : "" +:+ a = a.
Proof. reflexivity. Qed.

Lemma string_app_nil_r (a : string) : a +:+ "" = a.
Proof.
  induction a as [|x a IH]; [done|].
  by rewrite string_app_cons, IH.
Qed.

Lemma string_app_assoc (a b c : string) : (a +:+ b) +:+ c = a +:+ (b +:+ c).
Proof.
  induction a as [|x a IH]; [done|].
  by rewrite !string_app_cons, IH.
Qed.

Lemma string_length_app (a b : string) :
  String.length (a +:+ b) = (String.length a + String.length b)%nat.
Proof.
  induction a as [|x a IH]; [done|].
  rewrite string_app_cons. simpl. by rewrite IH.
Qed.

Lemma substring_0_0 (s : string) : String.substring 0 0 s = "".
Proof. by destruct s. Qed.

(** Cutting a suffix of [k] characters off with [s[:-k]]. *)
Lemma slice_to_neg_app (s t : string) :
  slice_to_neg (String.length t) (s +:+ t) = s.
Proof.
  unfold slice_to_neg. induction s as [|x s IH].
  - rewrite string_app_nil_l. by rewrite Nat.sub_diag, substring_0_0.
  - rewrite string_app_cons. simpl String.length.
    rewrite string_length_app in *.
    replace (S (String.length s + String.length t) - String.length t)%nat
      with (S (String.length s + String.length t - String.length t)) by lia.
    simpl. by rewrite IH.
Qed.

Lemma digits_split (w : nat) (n : Z) :
  digits (3 + w) n =
  digits w (n / 1000) +:+
  String (digit (n / 100)) (String (digit (n / 10)) (String (digit n) "")).
Proof.
  change (3 + w)%nat with (S (S (S w))). cbn [digits].
  rewrite !string_app_assoc, !string_app_cons, !string_app_nil_l.
  rewrite !Z.div_div by lia. done.
Qed.

(** Away from whole seconds the slicing keeps exactly the first three of
    the six fractional digits. *)
Lemma format_timestamp_millis (d : datetime) :
  microsecond d ≠ 0 → format_timestamp d = iso8601_millis d.
Proof.
  intros Hus. unfold format_timestamp, iso8601_millis, isoformat.
  destruct (Z.eqb_spec (microsecond d) 0) as [|_]; [done|].
  rewrite (digits_split 3).
  set (tail := String (digit (microsecond d / 100)) _).
  rewrite <- !string_app_assoc.
  change 3%nat with (String.length tail) at 1.
  by rewrite slice_to_neg_app.
Qed.

(** On a whole second [isoformat] prints no fraction, and the slice eats
    the seconds. *)
Lemma format_timestamp_whole_second (d : datetime) :
  microsecond d = 0 →
  format_timestamp d =
  isoformat_date d +:+ "T" +:+ digits 2 (hour d) +:+ ":" +:+
  digits 2 (minute d) +:+ "Z".
Proof.
  intros Hus. unfold format_timestamp, isoformat, isoformat_time.
  rewrite Hus. change (if 0 =? 0 then "" else _) with "".
  set (tail := ":" +:+ digits 2 (second d)).
  set (front := isoformat_date d +:+ "T" +:+ digits 2 (hour d) +:+ ":" +:+
                digits 2 (minute d)).
  replace (isoformat_date d +:+ "T" +:+
           (digits 2 (hour d) +:+ ":" +:+ digits 2 (minute d) +:+ tail) +:+ "")
    with (front +:+ tail)
    by (subst front; by rewrite !string_app_assoc, string_app_nil_r).
  change 3%nat with (String.length tail).
  rewrite slice_to_neg_app. subst front. by rewrite !string_app_assoc.
Qed.

(** ** The result mapper *)

Lemma unified_row_inv (row : sql_row) :
  unified_row row →
  ∃ ts dep msg code et op node lg lv ty,
    row = unified ts dep msg code et op node lg lv ty.
Proof.
  unfold unified_row, unified_columns. intros H.
  do 10 (destruct row as [|[? ?] row]; [discriminate H|]).
  destruct row; [|discriminate H].
  simpl in H. simplify_eq. by repeat eexists.
Qed.

Ltac abstract_cells :=
  unfold _map_event_to_es, row_to_dict, unified; cbn [foldl fst snd];
  repeat match goal with
         | |- context [to_py ?v] => generalize (to_py v); intro
         end;
  generalize stringify_datetime; intro.

Ltac eval_lookups :=
  repeat first
    [ rewrite lookup_insert_eq | rewrite lookup_insert_ne by done
    | rewrite lookup_delete_ne by done | rewrite lookup_delete_eq
    | rewrite lookup_empty ].

(** Runs the dictionary reads and deletions at the head of the mapper. *)
Ltac run_mapper :=
  repeat (first [ progress unfold getitem at 1 | progress unfold delitem at 1 ];
          eval_lookups;
          cbn [bind collect_fields delete_fields context_fields]).

(** The mapped record of an event row, in closed form. *)
Lemma map_event_row (ts dep msg code et op node lg lv ty : value) :
  py_eq_str (to_py ty) "cloudify_event" = true →
  _map_event_to_es None (unified ts dep msg code et op node lg lv ty) =
  Ok (stringify_datetime <$>
      event_record (to_py ts) (to_py dep) (to_py msg) (to_py code)
                   (to_py et) (to_py op) (to_py node) (to_py ty)).
Proof.
  revert ty. abstract_cells. intros ty.
  generalize (to_py ty). intros pty H.
  run_mapper. rewrite H. unfold set_message_arguments. run_mapper.
  reflexivity.
Qed.

(** The mapped record of a log row, in closed form. *)
Lemma map_log_row (ts dep msg code et op node lg lv ty : value) :
  py_eq_str (to_py ty) "cloudify_event" = false →
  py_eq_str (to_py ty) "cloudify_log" = true →
  _map_event_to_es None (unified ts dep msg code et op node lg lv ty) =
  Ok (stringify_datetime <$>
      log_record (to_py ts) (to_py dep) (to_py msg) (to_py code)
                 (to_py op) (to_py node) (to_py lg) (to_py lv) (to_py ty)).
Proof.
  revert ty. abstract_cells. intros ty.
  generalize (to_py ty). intros pty H1 H2.
  run_mapper. rewrite H1, H2. run_mapper.
  reflexivity.
Qed.

(** The mapped record of a row with another tag, in closed form. *)
Lemma map_untyped_row (ts dep msg code et op node lg lv ty : value) :
  py_eq_str (to_py ty) "cloudify_event" = false →
  py_eq_str (to_py ty) "cloudify_log" = false →
  _map_event_to_es None (unified ts dep msg code et op node lg lv ty) =
  Ok (stringify_datetime <$>
      untyped_record (to_py ts) (to_py dep) (to_py msg) (to_py code)
                     (to_py et) (to_py op) (to_py node) (to_py lg)
                     (to_py lv) (to_py ty)).
Proof.
  revert ty. abstract_cells. intros ty.
  generalize (to_py ty). intros pty H1 H2.
  run_mapper. rewrite H1, H2. run_mapper.
  reflexivity.
Qed.

(** Closes a goal in which the tag of the row is assumed to be one literal
    while a test against it says otherwise. *)
Ltac contradict_tag :=
  match goal with
  | E : to_py ?ty = PStr _ |- _ =>
      repeat match goal with
             | H : py_eq_str (to_py ty) _ = _ |- _ =>
                 rewrite E in H; vm_compute in H; try discriminate H; clear H
             end
  end.

(** C4.  Every unified row is mapped to a record in which ['@timestamp']
    duplicates ['timestamp'], the deployment id, operation and node id have
    moved from the top level into the nested ['context'] dictionary under
    their own names, and the message is wrapped under ['text'].  An event
    row moreover gets a null ['arguments'] entry in the message and loses
    ['logger'] and ['level']; a log row loses ['event_type'] and keeps
    ['logger'] and ['level']. *)
Theorem map_event_to_es_shaping (row : sql_row) :
  unified_row row →
  ∃ record,
    _map_event_to_es None row = Ok record ∧
    record !! "@timestamp" = record !! "timestamp" ∧
    record !! "timestamp" =
      Some (stringify_datetime (row_cell row "timestamp")) ∧
    record !! "context" =
      Some (context_record (row_cell row "deployment_id")
                           (row_cell row "operation")
                           (row_cell row "node_id")) ∧
    record !! "deployment_id" = None ∧
    record !! "operation" = None ∧
    record !! "node_id" = None ∧
    (row_cell row "type" = PStr "cloudify_event" →
       record !! "message" =
         Some (PDict (list_to_map [("text", row_cell row "message");
                                   ("arguments", PNone)])) ∧
       record !! "logger" = None ∧
       record !! "level" = None) ∧
    (row_cell row "type" = PStr "cloudify_log" →
       record !! "message" =
         Some (PDict (list_to_map [("text", row_cell row "message")])) ∧
       record !! "event_type" = None ∧
       record !! "logger" =
         Some (stringify_datetime (row_cell row "logger")) ∧
       record !! "level" =
         Some (stringify_datetime (row_cell row "level"))).
Proof.
  intros (ts & dep & msg & code & et & op & node & lg & lv & ty & ->)%unified_row_inv.
  change (row_cell _ "timestamp") with (to_py ts).
  change (row_cell _ "deployment_id") with (to_py dep).
  change (row_cell _ "operation") with (to_py op).
  change (row_cell _ "node_id") with (to_py node).
  change (row_cell _ "message") with (to_py msg).
  change (row_cell _ "logger") with (to_py lg).
  change (row_cell _ "level") with (to_py lv).
  change (row_cell _ "type") with (to_py ty).
  destruct (py_eq_str (to_py ty) "cloudify_event") eqn:H1;
    [|destruct (py_eq_str (to_py ty) "cloudify_log") eqn:H2].
  - eexists. split; [by apply map_event_row|].
    rewrite !lookup_fmap.
    repeat split; try reflexivity; contradict_tag.
  - eexists. split; [by apply map_log_row|].
    rewrite !lookup_fmap.
    repeat split; try reflexivity; contradict_tag.
  - eexists. split; [by apply map_untyped_row|].
    rewrite !lookup_fmap.
    repeat split; try reflexivity; contradict_tag.
Qed.

Lemma sample_event_row_unified : unified_row sample_event_row.
Proof. reflexivity. Qed.

Lemma map_event_to_es_shaping_witness :
  unified_row sample_event_row ∧
  ∃ record,
    _map_event_to_es None sample_event_row = Ok record ∧
    record !! "@timestamp" = record !! "timestamp".
Proof.
  split; [reflexivity|].
  destruct (map_event_to_es_shaping sample_event_row sample_event_row_unified)
    as (record & Hrun & Hts & _).
  by exists record.
Defined.

(** What the three closed forms have in common. *)
Lemma map_unified_row_common (row : sql_row) :
  unified_row row →
  ∃ full,
    _map_event_to_es None row = Ok full ∧
    full !! "timestamp" = Some (stringify_datetime (row_cell row "timestamp")) ∧
    full !! "@timestamp" = Some (stringify_datetime (row_cell row "timestamp")) ∧
    is_Some (full !! "message").
Proof.
  intros (ts & dep & msg & code & et & op & node & lg & lv & ty & ->)%unified_row_inv.
  change (row_cell _ "timestamp") with (to_py ts).
  destruct (py_eq_str (to_py ty) "cloudify_event") eqn:H1;
    [|destruct (py_eq_str (to_py ty) "cloudify_log") eqn:H2];
    (eexists; split;
     [ first [by apply map_event_row | by apply map_log_row
             | by apply map_untyped_row]
     | rewrite !lookup_fmap; repeat split; try reflexivity; by eexists ]).
Qed.

(** X3.  Away from whole seconds both timestamp fields of the mapped record
    are rendered with millisecond precision, truncated, with the [Z]
    suffix. *)
Lemma map_event_timestamp_millis (row : sql_row) (d : datetime) :
  unified_row row →
  assoc "timestamp" row = Some (VDatetime d) →
  microsecond d ≠ 0 →
  ∃ record,
    _map_event_to_es None row = Ok record ∧
    record !! "timestamp" = Some (PStr (iso8601_millis d)) ∧
    record !! "@timestamp" = Some (PStr (iso8601_millis d)).
Proof.
  intros Hrow Hts Hus.
  destruct (map_unified_row_common row Hrow) as (full & Hrun & H1 & H2 & _).
  exists full. unfold row_cell in *. rewrite Hts in *. simpl in *.
  by rewrite <- format_timestamp_millis.
Qed.

Example sample_event_timestamps :
  ∃ record,
    _map_event_to_es None sample_event_row = Ok record ∧
    record !! "timestamp" = Some (PStr "2024-01-02T03:04:05.123Z") ∧
    record !! "@timestamp" = Some (PStr "2024-01-02T03:04:05.123Z") ∧
    record !! "message" =
      Some (PDict (list_to_map [("text", PStr "hello"); ("arguments", PNone)])).
Proof.
  eexists. split.
  - apply (map_event_row (VDatetime (mkDatetime 2024 1 2 3 4 5 123456))
             (VStr "dep") (VStr "hello") VNone (VStr "workflow_started")
             VNone VNone VNone VNone (VStr "cloudify_event")).
    reflexivity.
  - rewrite !lookup_fmap. repeat split; vm_compute; reflexivity.
Qed.

Lemma map_event_timestamp_millis_witness :
  ∃ record,
    _map_event_to_es None sample_event_row = Ok record ∧
    record !! "timestamp" =
      Some (PStr (iso8601_millis (mkDatetime 2024 1 2 3 4 5 123456))) ∧
    record !! "@timestamp" =
      Some (PStr (iso8601_millis (mkDatetime 2024 1 2 3 4 5 123456))).
Proof.
  apply (map_event_timestamp_millis sample_event_row
           (mkDatetime 2024 1 2 3 4 5 123456)).
  - reflexivity.
  - reflexivity.
  - simpl. lia.
Defined.

(** C3.  The timestamp 2024-01-02T03:04:05 (no microseconds) is rendered
    as ["2024-01-02T03:04Z"] in both ['timestamp'] and ['@timestamp']: the
    seconds are lost and there are no milliseconds, where ISO-8601 with
    millisecond precision is ["2024-01-02T03:04:05.000Z"]. *)
Theorem map_event_timestamp_whole_second :
  ∃ record,
    _map_event_to_es None whole_second_row = Ok record ∧
    record !! "timestamp" = Some (PStr "2024-01-02T03:04Z") ∧
    record !! "@timestamp" = Some (PStr "2024-01-02T03:04Z") ∧
    iso8601_millis (mkDatetime 2024 1 2 3 4 5 0) = "2024-01-02T03:04:05.000Z".
Proof.
  eexists. split.
  - apply (map_event_row (VDatetime (mkDatetime 2024 1 2 3 4 5 0))
             (VStr "dep") (VStr "hello") VNone (VStr "workflow_started")
             VNone VNone VNone VNone (VStr "cloudify_event")).
    reflexivity.
  - rewrite !lookup_fmap. repeat split; vm_compute; reflexivity.
Qed.

(** The projection only filters the record computed without it. *)
Lemma map_event_include (inc : list string) (row : sql_row)
    (full : gmap string pyval) :
  _map_event_to_es None row = Ok full →
  _map_event_to_es (Some inc) row = Ok (keyfilter inc full).
Proof.
  unfold _map_event_to_es. intros H.
  repeat match type of H with
         | bind ?a _ = _ =>
             destruct a eqn:?; cbn [bind] in *; [|discriminate H]
         end.
  by injection H as <-.
Qed.

Lemma keyfilter_lookup (inc : list string) (m : gmap string pyval) (k : string) :
  keyfilter inc m !! k = if decide (k ∈ inc) then m !! k else None.
Proof.
  unfold keyfilter. destruct (decide (k ∈ inc)) as [Hin|Hin].
  - destruct (m !! k) as [v|] eqn:Hk.
    + by apply map_lookup_filter_Some.
    + apply map_lookup_filter_None. left. done.
  - apply map_lookup_filter_None. right. intros v _. done.
Qed.

(** C9.  The mapper is a function of the projection list and the row
    alone.  With a projection list the record holds exactly the keys of the
    full record that are in the list, with the same values; for the list
    [["message"; "@timestamp"]] these are exactly the two keys; without a
    list the full record is returned. *)
Theorem map_event_to_es_projection (_include : list string) (row : sql_row) :
  unified_row row →
  ∃ full record,
    _map_event_to_es None row = Ok full ∧
    _map_event_to_es (Some _include) row = Ok record ∧
    (∀ k, record !! k = if decide (k ∈ _include) then full !! k else None) ∧
    (∀ k, k ∈ dom record ↔ k ∈ dom full ∧ k ∈ _include) ∧
    (_include = ["message"; "@timestamp"] →
       dom record = ({["message"; "@timestamp"]} : gset string)).
Proof.
  intros Hrow.
  destruct (map_unified_row_common row Hrow) as (full & Hrun & _ & Hts & Hmsg).
  exists full, (keyfilter _include full).
  split; [done|]. split; [by apply map_event_include|].
  assert (Hdom : ∀ k, k ∈ dom (keyfilter _include full) ↔
                      k ∈ dom full ∧ k ∈ _include).
  { intros k. rewrite !elem_of_dom, keyfilter_lookup.
    destruct (decide (k ∈ _include)).
    - split; [by intros ?; split | by intros [? _]].
    - split; [by intros [? ?] | by intros [_ ?]]. }
  split; [apply keyfilter_lookup|]. split; [done|].
  intros ->. apply set_eq. intros k. rewrite Hdom, elem_of_dom.
  rewrite elem_of_union, !elem_of_singleton, !elem_of_cons, elem_of_nil.
  split.
  - intros [_ [->|[->|[]]]]; [by left|by right].
  - intros [->| ->]; [split; [done|by left]|].
    split; [by rewrite Hts|by right; left].
Qed.

Lemma map_event_to_es_projection_witness :
  unified_row sample_event_row ∧
  ∃ record,
    _map_event_to_es (Some ["message"; "@timestamp"]) sample_event_row
      = Ok record ∧
    dom record = ({["message"; "@timestamp"]} : gset string).
Proof.
  split; [reflexivity|].
  destruct (map_event_to_es_projection ["message"; "@timestamp"]
              sample_event_row sample_event_row_unified)
    as (full & record & _ & Hrun & _ & _ & Hdom).
  exists record. split; [done|]. by apply Hdom.
Defined.

(** ** The query compiler *)

Lemma Query_filter_nil (q : Query) : Query_filter q [] = q.
Proof. destruct q. unfold Query_filter. simpl. by rewrite app_nil_r. Qed.

Lemma Query_filter_app (q : Query) (cs1 cs2 : list criterion) :
  Query_filter (Query_filter q cs1) cs2 = Query_filter q (cs1 ++ cs2).
Proof. unfold Query_filter. simpl. by rewrite app_assoc. Qed.

Lemma apply_filters_criteria (q : Query) (filters : gmap string (list string)) :
  _apply_filters q filters = Query_filter q (filter_criteria filters).
Proof.
  unfold _apply_filters, filter_criteria. simpl.
  destruct (filters !! "execution_id"), (filters !! "deployment_id");
    by rewrite ?Query_filter_app, ?Query_filter_nil.
Qed.

Lemma apply_range_filter_criteria (q : Query) (m : model) (field : string)
    (range_filter : gmap string value) :
  _apply_range_filter q m field range_filter =
  Query_filter q (bound_criteria m field range_filter).
Proof.
  unfold _apply_range_filter, bound_criteria.
  destruct (range_filter !! "from"), (range_filter !! "to");
    by rewrite ?Query_filter_app, ?Query_filter_nil.
Qed.

Lemma unrecognized_cons (m : model) (f : string) (rf : gmap string value)
    (rest : list (string * gmap string value)) :
  unrecognized m ((f, rf) :: rest) =
  if hasattr m (lstrip "@" f) then unrecognized m rest
  else Some (lstrip "@" f).
Proof.
  unfold unrecognized. rewrite fmap_cons. simpl.
  destruct (hasattr m (lstrip "@" f)) eqn:E.
  - rewrite filter_cons_False; [done|]. intros H. apply H. by rewrite E.
  - rewrite filter_cons_True; [done|]. intros H. by rewrite E in H.
Qed.

Lemma apply_range_filters_run (q : Query) (m : model)
    (range_filters : list (string * gmap string value)) :
  _apply_range_filters q m range_filters =
  match unrecognized m range_filters with
  | Some f => Raise (BadParametersError ("Unknown field to filter by range: " +:+ f))
  | None => Ok (Query_filter q (range_criteria m range_filters))
  end.
Proof.
  revert q. induction range_filters as [|[f rf] rest IH]; intros q.
  - simpl. by rewrite Query_filter_nil.
  - rewrite unrecognized_cons. simpl.
    destruct (hasattr m (lstrip "@" f)); [|done].
    rewrite IH, apply_range_filter_criteria.
    destruct (unrecognized m rest); [done|].
    by rewrite Query_filter_app.
Qed.

Lemma unrecognized_None (m : model)
    (range_filters : list (string * gmap string value)) :
  unrecognized m range_filters = None ↔
  ∀ f rf, (f, rf) ∈ range_filters → hasattr m (lstrip "@" f) = true.
Proof.
  induction range_filters as [|[f rf] rest IH].
  - split; [|done]. intros _ f rf H. by apply elem_of_nil in H.
  - rewrite unrecognized_cons.
    destruct (hasattr m (lstrip "@" f)) eqn:E.
    + rewrite IH. split.
      * intros H f' rf' [[= -> ->]|Hin]%elem_of_cons; [done|by eapply H].
      * intros H f' rf' Hin. eapply H. by right.
    + split; [done|]. intros H. specialize (H f rf).
      rewrite E in H. discriminate H. by left.
Qed.


(** *** Range filters *)

Lemma holds_bound_criteria (t : tuple) (m : model) (field : string)
    (rf : gmap string value) :
  Forall (fun c => holds t c) (bound_criteria m field rf) ↔
  (∀ b, rf !! "from" = Some b →
        ∃ v, tuple_attr t m field = Some v ∧ sql_ge v b) ∧
  (∀ b, rf !! "to" = Some b →
        ∃ v, tuple_attr t m field = Some v ∧ sql_le v b).
Proof.
  unfold bound_criteria. rewrite Forall_app.
  assert (Hge : ∀ b, Forall (fun c => holds t c) [CGe m field b] ↔
                     ∃ v, tuple_attr t m field = Some v ∧ sql_ge v b).
  { intros b. rewrite Forall_singleton. simpl.
    destruct (tuple_attr t m field) as [v|]; [|by split; [|intros (? & ? & ?)]].
    split; [by exists v|]. by intros (? & [= <-] & ?). }
  assert (Hle : ∀ b, Forall (fun c => holds t c) [CLe m field b] ↔
                     ∃ v, tuple_attr t m field = Some v ∧ sql_le v b).
  { intros b. rewrite Forall_singleton. simpl.
    destruct (tuple_attr t m field) as [v|]; [|by split; [|intros (? & ? & ?)]].
    split; [by exists v|]. by intros (? & [= <-] & ?). }
  destruct (rf !! "from") as [b1|], (rf !! "to") as [b2|];
    rewrite ?Hge, ?Hle, ?Forall_nil; split.
  - intros [? ?]. by split; intros ? [= <-].
  - intros [H1 H2]. split; [by apply H1|by apply H2].
  - intros [? _]. split; [by intros ? [= <-]|done].
  - intros [H1 _]. split; [by apply H1|done].
  - intros [_ ?]. split; [done|by intros ? [= <-]].
  - intros [_ H2]. split; [done|by apply H2].
  - done.
  - done.
Qed.

Lemma holds_range_criteria (t : tuple) (m : model)
    (range_filters : list (string * gmap string value)) :
  Forall (fun c => holds t c) (range_criteria m range_filters) ↔
  ∀ f rf, (f, rf) ∈ range_filters →
    (∀ b, rf !! "from" = Some b →
          ∃ v, tuple_attr t m (lstrip "@" f) = Some v ∧ sql_ge v b) ∧
    (∀ b, rf !! "to" = Some b →
          ∃ v, tuple_attr t m (lstrip "@" f) = Some v ∧ sql_le v b).
Proof.
  unfold range_criteria. rewrite Forall_bind, Forall_forall. split.
  - intros H f rf Hin. by apply (holds_bound_criteria t m _ rf), (H (f, rf)).
  - intros H [f rf] Hin. apply holds_bound_criteria. by apply H.
Qed.





Lemma range_filters_fit_unrecognized (m : model)
    (rfs : list (string * gmap string value)) :
  range_filters_fit m rfs = true → unrecognized m rfs = None.
Proof.
  intros Hfit. apply unrecognized_None. intros f rf Hin.
  unfold range_filters_fit in Hfit. rewrite forallb_forall in Hfit.
  apply list_elem_of_In in Hin. specialize (Hfit _ Hin). cbn [fst snd] in Hfit.
  by apply andb_prop in Hfit as [[? _]%andb_prop _].
Qed.



(** *** Sorting *)

Lemma unknown_sort_field_cons (names : list string) (f o : string)
    (rest : list (string * string)) :
  unknown_sort_field names ((f, o) :: rest) =
  if decide (lstrip "@" f ∈ names) then unknown_sort_field names rest
  else Some (lstrip "@" f).
Proof.
  unfold unknown_sort_field. rewrite fmap_cons. simpl.
  destruct (decide (lstrip "@" f ∈ names)).
  - by rewrite filter_cons_False; [|intros H; apply H].
  - by rewrite filter_cons_True.
Qed.

Lemma with_ordering_order_by (q : Query) (keys : list (direction * string))
    (key : direction * string) :
  Query_order_by (with_ordering q keys) key = with_ordering q (keys ++ [key]).
Proof. reflexivity. Qed.

Lemma with_ordering_id (q : Query) : with_ordering q (ordering q) = q.
Proof. by destruct q. Qed.

Lemma apply_sort_items_run (names : list string) (q : Query)
    (keys : list (direction * string)) (sort : list (string * string)) :
  apply_sort_items names (with_ordering q keys) sort =
  match unknown_sort_field names sort with
  | Some f => Raise (BadParametersError ("Unknown field to sort by: " +:+ f))
  | None => Ok (with_ordering q (keys ++ sort_keys sort))
  end.
Proof.
  revert keys. induction sort as [|[f o] rest IH]; intros keys.
  - simpl. by rewrite app_nil_r.
  - rewrite unknown_sort_field_cons. simpl.
    rewrite bool_decide_decide.
    destruct (decide (lstrip "@" f ∈ names)); [|done].
    rewrite with_ordering_order_by, IH.
    destruct (unknown_sort_field names rest); [done|].
    rewrite <- app_assoc. simpl. do 4 f_equal.
    destruct (String.eqb_spec o "asc"), (decide (o = "asc")); done.
Qed.

Lemma apply_sort_run (q : Query) (sort : list (string * string)) :
  _apply_sort q sort =
  match unknown_sort_field (column_names q) sort with
  | Some f => Raise (BadParametersError ("Unknown field to sort by: " +:+ f))
  | None => Ok (with_ordering q (ordering q ++ sort_keys sort))
  end.
Proof.
  unfold _apply_sort. rewrite <- (with_ordering_id q) at 2.
  apply apply_sort_items_run.
Qed.

Lemma unknown_sort_field_None (names : list string)
    (sort : list (string * string)) :
  unknown_sort_field names sort = None ↔
  ∀ f o, (f, o) ∈ sort → lstrip "@" f ∈ names.
Proof.
  induction sort as [|[f o] rest IH].
  - split; [|done]. intros _ f o H. by apply elem_of_nil in H.
  - rewrite unknown_sort_field_cons.
    destruct (decide (lstrip "@" f ∈ names)) as [Hf|Hf].
    + rewrite IH. split.
      * intros H f' o' [[= -> ->]|Hin]%elem_of_cons; [done|by eapply H].
      * intros H f' o' Hin. eapply H. by right.
    + split; [done|]. intros H. destruct Hf. apply (H f o). by left.
Qed.

Lemma unknown_sort_field_Some (names : list string)
    (sort : list (string * string)) (f : string) :
  unknown_sort_field names sort = Some f →
  (f ∉ names) ∧ ∃ f' o, (f', o) ∈ sort ∧ f = lstrip "@" f'.
Proof.
  induction sort as [|[f' o] rest IH]; [done|].
  rewrite unknown_sort_field_cons.
  destruct (decide (lstrip "@" f' ∈ names)) as [Hf|Hf].
  - intros (? & f'' & o' & ? & ?)%IH. split; [done|].
    exists f'', o'. split; [by right|done].
  - intros [= <-]. split; [done|]. exists f', o. split; [by left|done].
Qed.

Lemma list_compare_antisym (l1 l2 : list Z) :
  list_compare l2 l1 = CompOpp (list_compare l1 l2).
Proof.
  revert l2. induction l1 as [|x l1 IH]; intros [|y l2]; simpl; try done.
  rewrite (Z.compare_antisym x y).
  destruct (x ?= y); simpl; [apply IH|done|done].
Qed.

Lemma value_compare_antisym (a b : value) :
  value_compare b a = CompOpp (value_compare a b).
Proof.
  destruct a, b; unfold value_compare;
    try apply Z.compare_antisym; try apply String.compare_antisym;
    try apply list_compare_antisym; done.
Qed.

Lemma row_compare_antisym (keys : list (direction * nat)) (r1 r2 : list value) :
  row_compare keys r2 r1 = CompOpp (row_compare keys r1 r2).
Proof.
  induction keys as [|[d i] keys IH]; [done|].
  simpl. rewrite (value_compare_antisym (cell r1 i) (cell r2 i)).
  destruct d, (value_compare (cell r1 i) (cell r2 i)); simpl; done.
Qed.

Global Instance row_le_total (keys : list (direction * nat)) :
  Total (row_le keys).
Proof.
  intros r1 r2. unfold row_le. rewrite (row_compare_antisym keys r1 r2).
  destruct (row_compare keys r1 r2); simpl; [by left|by left|by right].
Qed.




Lemma execute_eq (s : store) (params : gmap string Z) (q : Query) :
  execute s params q =
  (rows ← body_rows s params q;
   keys ← mapM (resolve_key (column_names q)) (ordering q);
   if forallb (orderable (entities q) (is_union (from_union q))) keys then
     rows ← apply_offset params (offset_clause q) (sort_rows keys rows);
     apply_limit params (limit_clause q) rows
   else None).
Proof. by destruct q. Qed.



Ltac by_decide :=
  lazymatch goal with
  | |- ?P => apply (bool_decide_unpack P); vm_compute; exact I
  end.


Lemma sort_keys_desc (sort : list (string * string)) :
  (∀ f o, (f, o) ∈ sort → o ≠ "asc") →
  sort_keys sort = (fun fo => desc (lstrip "@" fo.1)) <$> sort.
Proof.
  induction sort as [|[f o] rest IH]; intros H; [done|].
  unfold sort_keys in *. rewrite !fmap_cons. simpl. f_equal.
  - rewrite decide_False; [done|]. apply (H f o). by left.
  - apply IH. intros f' o' Hin. apply (H f' o'). by right.
Qed.

(** C10.  Each sort entry is applied on its own: as an ascending key when
    its direction is exactly ['asc'], as a descending key for any other
    direction, whatever the directions of the other entries are.  With
    valid field names no error is raised, whatever the directions are. *)
Theorem sort_direction_defaults_to_desc (q : Query)
    (sort : list (string * string)) :
  (∀ f o, (f, o) ∈ sort → lstrip "@" f ∈ column_names q) →
  _apply_sort q sort = Ok (with_ordering q (ordering q ++ sort_keys sort)) ∧
  Forall2 (fun fo key =>
             key.2 = lstrip "@" fo.1 ∧
             (fo.2 ≠ "asc" → key.1 = Descending) ∧
             (fo.2 = "asc" → key.1 = Ascending))
          sort (sort_keys sort).
Proof.
  intros Hfields. split.
  - rewrite apply_sort_run.
    apply unknown_sort_field_None in Hfields. by rewrite Hfields.
  - clear Hfields. induction sort as [|[f o] sort IH]; [constructor|].
    cbn [sort_keys fmap list_fmap]. constructor; [|exact IH].
    cbn [fst snd]. split; [done|].
    by destruct (decide (o = "asc")).
Qed.

Lemma sort_direction_defaults_to_desc_witness :
  _apply_sort events_select mixed_directions_sort =
    Ok (with_ordering events_select
          [(Ascending, "timestamp"); (Descending, "type");
           (Descending, "level"); (Ascending, "deployment_id");
           (Descending, "message")]) ∧
  Forall2 (fun fo key =>
             key.2 = lstrip "@" fo.1 ∧
             (fo.2 ≠ "asc" → key.1 = Descending) ∧
             (fo.2 = "asc" → key.1 = Ascending))
          mixed_directions_sort (sort_keys mixed_directions_sort).
Proof.
  apply (sort_direction_defaults_to_desc events_select mixed_directions_sort).
  intros f o Hin. unfold mixed_directions_sort in Hin.
  repeat (apply elem_of_cons in Hin as [Hin|Hin];
          [injection Hin as -> _; by_decide|]).
  by apply elem_of_nil in Hin.
Defined.

Example odd_directions_are_descending :
  _apply_sort events_select odd_directions_sort =
  Ok (with_ordering events_select
        [(Descending, "timestamp"); (Descending, "timestamp");
         (Descending, "type"); (Descending, "level")]).
Proof. reflexivity. Qed.

(** *** Building the queries *)

Lemma source_query_eq (cols : list column) (m : model)
    (d : gmap string (list string))
    (rfs : list (string * gmap string value)) :
  unrecognized m rfs = None →
  _apply_range_filters
    (_apply_filters (Query_filter (session_query cols) (ownership m)) d) m rfs
  = Ok (source_query cols m d rfs).
Proof.
  intros H. rewrite apply_range_filters_run, H, apply_filters_criteria.
  by rewrite !Query_filter_app.
Qed.

Lemma build_select_query_events (d : gmap string (list string))
    (types : list string) (p : pagination) (sort : list (string * string))
    (rfs : list (string * gmap string value)) :
  d !! "type" = Some types →
  "cloudify_event" ∈ types → "cloudify_log" ∉ types →
  unrecognized Event rfs = None →
  unknown_sort_field unified_columns sort = None →
  _build_select_query (FiltersDict d) p sort rfs =
  Ok (select_plan (source_query events_columns Event d rfs) sort).
Proof.
  intros Hd Hev Hlog Hrf Hsort. unfold _build_select_query. rewrite Hd.
  rewrite (bool_decide_true _ Hev), (bool_decide_false _ Hlog).
  cbn [negb]. rewrite source_query_eq by done. cbn [bind].
  rewrite apply_sort_run.
  change (column_names (source_query events_columns Event d rfs))
    with unified_columns.
  by rewrite Hsort.
Qed.

Lemma build_select_query_both (d : gmap string (list string))
    (types : list string) (p : pagination) (sort : list (string * string))
    (rfs : list (string * gmap string value)) :
  d !! "type" = Some types →
  "cloudify_event" ∈ types → "cloudify_log" ∈ types →
  unrecognized Event rfs = None → unrecognized Log rfs = None →
  unknown_sort_field unified_columns sort = None →
  _build_select_query (FiltersDict d) p sort rfs =
  Ok (select_plan
        (Query_union (source_query events_columns Event d rfs)
                     (source_query logs_columns Log d rfs))
        sort).
Proof.
  intros Hd Hev Hlog Hrf1 Hrf2 Hsort. unfold _build_select_query. rewrite Hd.
  rewrite (bool_decide_true _ Hev), (bool_decide_true _ Hlog).
  cbn [negb]. rewrite !source_query_eq by done. cbn [bind].
  rewrite apply_sort_run.
  change (column_names (Query_union _ _)) with unified_columns.
  by rewrite Hsort.
Qed.

Lemma build_count_query_events (d : gmap string (list string))
    (types : list string) (rfs : list (string * gmap string value)) :
  d !! "type" = Some types →
  "cloudify_event" ∈ types → "cloudify_log" ∉ types →
  unrecognized Event rfs = None →
  _build_count_query (FiltersDict d) rfs =
  Ok (SubqueryColumn (source_query count_columns Event d rfs) "count").
Proof.
  intros Hd Hev Hlog Hrf. unfold _build_count_query. rewrite Hd.
  rewrite (bool_decide_true _ Hev), (bool_decide_false _ Hlog).
  cbn [negb]. by rewrite source_query_eq by done.
Qed.

Lemma build_count_query_both (d : gmap string (list string))
    (types : list string) (rfs : list (string * gmap string value)) :
  d !! "type" = Some types →
  "cloudify_event" ∈ types → "cloudify_log" ∈ types →
  unrecognized Event rfs = None → unrecognized Log rfs = None →
  _build_count_query (FiltersDict d) rfs =
  Ok (SubqueryColumnSum (source_query count_columns Event d rfs) "count"
                        (source_query count_columns Log d rfs) "count").
Proof.
  intros Hd Hev Hlog Hrf1 Hrf2. unfold _build_count_query. rewrite Hd.
  rewrite (bool_decide_true _ Hev), (bool_decide_true _ Hlog).
  cbn [negb]. by rewrite !source_query_eq by done.
Qed.

(** C2.  When [filters] is not a dictionary, has no ['type'] key, or its
    ['type'] list lacks ['cloudify_event'], both builders raise
    [BadParameters]; in a request this happens while the first query is
    compiled: no statement has been run against the store. *)
Theorem type_filter_validation (filters : filters_arg) (p : pagination)
    (sort : list (string * string))
    (rfs : list (string * gmap string value)) :
  invalid_type_filter filters →
  ∃ msg,
    _build_select_query filters p sort rfs = Raise (BadParametersError msg) ∧
    _build_count_query filters rfs = Raise (BadParametersError msg) ∧
    ∀ s _include,
      run_queries s filters p sort rfs _include =
      ([], Raised (BadParametersError msg)).
Proof.
  unfold invalid_type_filter, run_queries, _build_select_query,
    _build_count_query.
  destruct filters as [|d]; [by eexists|].
  destruct (d !! "type") as [types|]; [|by eexists].
  intros Hev. rewrite (bool_decide_false _ Hev). by eexists.
Qed.

Lemma type_filter_validation_witness :
  invalid_type_filter
    (FiltersDict {["type" := ["cloudify_log"]]}) ∧
  ∃ msg, ∀ s,
    run_queries s (FiltersDict {["type" := ["cloudify_log"]]})
                (mkPagination 10 0) [] [] None =
    ([], Raised (BadParametersError msg)).
Proof.
  assert (H : invalid_type_filter
                (FiltersDict {["type" := ["cloudify_log"]]})).
  { unfold invalid_type_filter. rewrite lookup_singleton_eq. by_decide. }
  split; [exact H|].
  destruct (type_filter_validation _ (mkPagination 10 0) [] [] H)
    as (msg & _ & _ & Hrun).
  exists msg. intros s. apply Hrun.
Defined.

(** *** Running the queries *)

Lemma table_used {A} (rows : list A) (o : option A) :
  o ∈ table true rows ↔ ∃ a, o = Some a ∧ a ∈ rows.
Proof. unfold table. apply list_elem_of_fmap. Qed.

Lemma cross_join_elem (s : store) (ms : list model) (t : tuple) :
  t ∈ cross_join s ms ↔
  t_event t ∈ table (bool_decide (Event ∈ ms)) (events s) ∧
  t_log t ∈ table (bool_decide (Log ∈ ms)) (logs s) ∧
  t_execution t ∈ table (bool_decide (Execution ∈ ms)) (executions s) ∧
  t_deployment t ∈ table (bool_decide (Deployment ∈ ms)) (deployments s).
Proof.
  unfold cross_join. destruct t as [e l x d]. simpl. split.
  - intros (e' & (l' & (x' & (d' & Ht & ?)%list_elem_of_bind & ?)
                           %list_elem_of_bind & ?)%list_elem_of_bind & ?)
             %list_elem_of_bind.
    apply list_elem_of_singleton in Ht. by injection Ht as -> -> -> ->.
  - intros (? & ? & ? & ?).
    apply list_elem_of_bind. exists e. split; [|done].
    apply list_elem_of_bind. exists l. split; [|done].
    apply list_elem_of_bind. exists x. split; [|done].
    apply list_elem_of_bind. exists d. split; [|done].
    by apply list_elem_of_singleton.
Qed.

Lemma matching_elem (s : store) (cols : list column) (cs : list criterion)
    (t : tuple) :
  t ∈ matching s cols cs ↔
  Forall (fun c => holds t c) cs ∧ t ∈ cross_join s (from_models cols cs).
Proof. unfold matching. by rewrite list_elem_of_filter. Qed.

Lemma from_models_criterion (cols : list column) (cs : list criterion)
    (c : criterion) (m : model) :
  c ∈ cs → m ∈ criterion_models c → m ∈ from_models cols cs.
Proof.
  intros Hc Hm. unfold from_models. apply elem_of_app. right.
  apply list_elem_of_bind. by exists c.
Qed.

Lemma from_models_column (cols : list column) (cs : list criterion)
    (c : column) (m : model) :
  c ∈ cols → m ∈ expr_models (col_expr c) → m ∈ from_models cols cs.
Proof.
  intros Hc Hm. unfold from_models. apply elem_of_app. left.
  apply list_elem_of_bind. by exists c.
Qed.

Lemma cross_join_execution (s : store) (ms : list model) (t : tuple) :
  t ∈ cross_join s ms → Execution ∈ ms →
  ∃ x, t_execution t = Some x ∧ x ∈ executions s.
Proof.
  intros (_ & _ & H & _)%cross_join_elem Hm.
  rewrite (bool_decide_true _ Hm) in H. by apply table_used.
Qed.

Lemma cross_join_deployment (s : store) (ms : list model) (t : tuple) :
  t ∈ cross_join s ms → Deployment ∈ ms →
  ∃ d, t_deployment t = Some d ∧ d ∈ deployments s.
Proof.
  intros (_ & _ & _ & H)%cross_join_elem Hm.
  rewrite (bool_decide_true _ Hm) in H. by apply table_used.
Qed.

Lemma cross_join_event (s : store) (ms : list model) (t : tuple) :
  t ∈ cross_join s ms → Event ∈ ms →
  ∃ e, t_event t = Some e ∧ e ∈ events s.
Proof.
  intros (H & _)%cross_join_elem Hm.
  rewrite (bool_decide_true _ Hm) in H. by apply table_used.
Qed.

Lemma cross_join_log (s : store) (ms : list model) (t : tuple) :
  t ∈ cross_join s ms → Log ∈ ms →
  ∃ l, t_log t = Some l ∧ l ∈ logs s.
Proof.
  intros (_ & H & _)%cross_join_elem Hm.
  rewrite (bool_decide_true _ Hm) in H. by apply table_used.
Qed.

Lemma sql_eq_int (a b : Z) : sql_eq (VInt a) (VInt b) → a = b.
Proof.
  unfold sql_eq. simpl. intros H%bool_decide_unpack. by apply Z.compare_eq.
Qed.

Lemma holds_in_id (t : tuple) (xs : list string) (x : ExecutionRow) :
  t_execution t = Some x → holds t (CIn Execution "id" xs) → ex_id x ∈ xs.
Proof.
  intros Hx. simpl. rewrite Hx. simpl. intros H%bool_decide_unpack.
  apply list_elem_of_fmap in H as (y & [= ->] & ?). done.
Qed.

Lemma holds_in_deployment_id (t : tuple) (ys : list string)
    (d : DeploymentRow) :
  t_deployment t = Some d → holds t (CIn Deployment "id" ys) → dp_id d ∈ ys.
Proof.
  intros Hd. simpl. rewrite Hd. simpl. intros H%bool_decide_unpack.
  apply list_elem_of_fmap in H as (y & [= ->] & ?). done.
Qed.

(** No row of the join passes the ownership criterion together with an
    execution filter and a deployment filter that do not go together. *)
Lemma matching_mismatch (s : store) (cols : list column)
    (cs : list criterion) (xs ys : list string) :
  CEq Execution "_deployment_fk" Deployment "_storage_id" ∈ cs →
  CIn Execution "id" xs ∈ cs →
  CIn Deployment "id" ys ∈ cs →
  (∀ x d, x ∈ executions s → d ∈ deployments s →
          ex_id x ∈ xs → dp_id d ∈ ys →
          ex_deployment_fk x ≠ dp_storage_id d) →
  matching s cols cs = [].
Proof.
  intros Hown Hxs Hys Hmis. apply elem_of_nil_inv. intros t.
  rewrite matching_elem. intros [Hall Hjoin].
  rewrite Forall_forall in Hall.
  destruct (cross_join_execution _ _ _ Hjoin) as (x & Hx & Hxin).
  { eapply from_models_criterion; [exact Hown|]. simpl. left. }
  destruct (cross_join_deployment _ _ _ Hjoin) as (d & Hd & Hdin).
  { eapply from_models_criterion; [exact Hown|]. simpl. right. left. }
  apply (Hmis x d Hxin Hdin).
  - by eapply holds_in_id, Hall.
  - by eapply holds_in_deployment_id, Hall.
  - specialize (Hall _ Hown). simpl in Hall. rewrite Hx, Hd in Hall.
    simpl in Hall. by apply sql_eq_int.
Qed.

Lemma execute_plain (s : store) (params : gmap string Z) (q : Query) :
  from_union q = None → ordering q = [] →
  limit_clause q = None → offset_clause q = None →
  execute s params q =
  sort_rows [] <$> select_rows s (entities q) (criteria q).
Proof.
  intros Hu Ho Hl Hf. rewrite execute_eq. unfold body_rows.
  rewrite Hu, Ho, Hl, Hf. by destruct (select_rows _ _ _).
Qed.

Lemma execute_source (s : store) (params : gmap string Z)
    (cols : list column) (m : model) (d : gmap string (list string))
    (rfs : list (string * gmap string value)) :
  execute s params (source_query cols m d rfs) =
  sort_rows [] <$> select_rows s cols (criteria (source_query cols m d rfs)).
Proof. by apply execute_plain. Qed.

Lemma body_rows_union (s : store) (params : gmap string Z) (q1 q2 : Query)
    (r1 r2 : list (list value)) :
  execute s params q1 = Some r1 → execute s params q2 = Some r2 →
  length (entities q1) = length (entities q2) →
  body_rows s params (Query_union q1 q2) = Some (remove_dups (r1 ++ r2)).
Proof.
  intros H1 H2 Hlen. unfold body_rows. simpl. rewrite H1, H2. simpl.
  by rewrite Hlen, Nat.eqb_refl.
Qed.

Lemma index_of_is_Some (name : string) (names : list string) :
  name ∈ names → is_Some (index_of name names).
Proof.
  induction names as [|n names IH]; [by intros ?%elem_of_nil|].
  simpl. destruct (String.eqb_spec name n) as [->|Hne]; [by eexists|].
  intros [?|Hin]%elem_of_cons; [done|].
  destruct (IH Hin) as [i ->]. by eexists.
Qed.

Lemma resolve_sort_keys (names : list string) (sort : list (string * string)) :
  unknown_sort_field names sort = None →
  is_Some (mapM (resolve_key names) (sort_keys sort)).
Proof.
  rewrite unknown_sort_field_None. intros H.
  apply mapM_is_Some, Forall_forall. intros key Hkey.
  apply list_elem_of_fmap in Hkey as ([f o] & -> & Hin).
  unfold resolve_key. simpl.
  destruct (index_of_is_Some (lstrip "@" f) names) as [i ->]; [by eapply H|].
  by eexists.
Qed.

(** Outside a UNION every column can be ordered by. *)
Lemma orderable_plain (cols : list column) (keys : list (direction * nat)) :
  forallb (orderable cols false) keys = true.
Proof. by induction keys. Qed.

Example labelled_names_events :
  labelled_names events_columns =
  ["timestamp"; "deployment_id"; "logger"; "level"; "type"].
Proof. reflexivity. Qed.

(** Sort fields among the labels of the event columns resolve to columns
    that a UNION led by the event columns can be ordered by. *)
Lemma orderable_union_labels (sort : list (string * string))
    (keys : list (direction * nat)) :
  mapM (resolve_key unified_columns) (sort_keys sort) = Some keys →
  unknown_sort_field (labelled_names events_columns) sort = None →
  forallb (orderable events_columns true) keys = true.
Proof.
  rewrite unknown_sort_field_None. revert keys.
  induction sort as [|[f o] sort IH]; intros keys Hkeys Hall.
  - by injection Hkeys as <-.
  - cbn [sort_keys fmap list_fmap] in Hkeys. cbn [mapM] in Hkeys.
    apply bind_Some in Hkeys as (key & Hkey & Hkeys).
    apply bind_Some in Hkeys as (keys' & Hkeys' & [= <-]).
    cbn [forallb]. apply andb_true_intro. split.
    + pose proof (Hall f o ltac:(left)) as Hf.
      rewrite labelled_names_events in Hf. cbn [fst snd] in Hkey.
      repeat (apply elem_of_cons in Hf as [Hf|Hf];
              [rewrite Hf in Hkey; by injection Hkey as <-|]).
      by apply elem_of_nil in Hf.
    + apply IH; [done|]. intros f' o' Hin. eapply Hall. by right.
Qed.

(** The final selection: sorted by the keys of the sort specification,
    then OFFSET and LIMIT with the bound parameters. *)
Lemma execute_select_plan (s : store) (p : pagination) (q : Query)
    (sort : list (string * string)) (base : list (list value))
    (keys : list (direction * nat)) :
  body_rows s (bound_params p) q = Some base →
  mapM (resolve_key (column_names q)) (ordering q ++ sort_keys sort)
    = Some keys →
  forallb (orderable (entities q) (is_union (from_union q))) keys = true →
  0 <= pg_size p <= max_bigint → 0 <= pg_offset p <= max_bigint →
  execute s (bound_params p) (select_plan q sort) =
  Some (take (Z.to_nat (pg_size p))
          (drop (Z.to_nat (pg_offset p)) (sort_rows keys base))).
Proof.
  intros Hbase Hkeys Hord Hsize Hoff. rewrite execute_eq.
  change (body_rows s (bound_params p) (select_plan q sort))
    with (body_rows s (bound_params p) q).
  rewrite Hbase. simpl.
  change (column_names (select_plan q sort)) with (column_names q).
  rewrite Hkeys. simpl. rewrite Hord. unfold bound_params.
  rewrite lookup_insert_eq. simpl. rewrite decide_True by done. simpl.
  rewrite lookup_insert_ne by done. rewrite lookup_singleton_eq. simpl.
  by rewrite decide_True by done.
Qed.

Lemma source_query_mismatch (s : store) (cols : list column) (m : model)
    (d : gmap string (list string)) (xs ys : list string)
    (rfs : list (string * gmap string value)) :
  d !! "execution_id" = Some xs → d !! "deployment_id" = Some ys →
  (∀ x dp, x ∈ executions s → dp ∈ deployments s →
           ex_id x ∈ xs → dp_id dp ∈ ys →
           ex_deployment_fk x ≠ dp_storage_id dp) →
  matching s cols (criteria (source_query cols m d rfs)) = [].
Proof.
  intros Hxs Hys Hmis. apply (matching_mismatch s cols _ xs ys); [| | |done];
    simpl; unfold filter_criteria; rewrite Hxs, Hys; simpl.
  - right. left.
  - do 2 right. left.
  - do 3 right. left.
Qed.

Lemma filters_both_criteria (d : gmap string (list string))
    (xs ys : list string) :
  d !! "execution_id" = Some xs → d !! "deployment_id" = Some ys →
  filter_criteria d = [CIn Execution "id" xs; CIn Deployment "id" ys].
Proof. intros Hxs Hys. unfold filter_criteria. by rewrite Hxs, Hys. Qed.

(** C7.  [_apply_filters] adds one IN-predicate per filter present, on the
    ids of executions and of deployments, to the criteria of the query,
    which all have to hold together with the ownership join.  When no
    execution with an id of the execution filter belongs to a deployment
    with an id of the deployment filter, the request selects no row and
    counts zero.  The request is one that passes validation and that the
    store accepts: range bounds of the kind of their column, sort fields
    among the labelled columns when logs are asked for, a size and an
    offset within the 64-bit integers. *)
Theorem mismatched_filters_select_nothing (s : store)
    (d : gmap string (list string)) (types xs ys : list string)
    (p : pagination) (sort : list (string * string))
    (rfs : list (string * gmap string value))
    (_include : option (list string)) :
  d !! "type" = Some types → "cloudify_event" ∈ types →
  d !! "execution_id" = Some xs → d !! "deployment_id" = Some ys →
  (∀ x dp, x ∈ executions s → dp ∈ deployments s →
           ex_id x ∈ xs → dp_id dp ∈ ys →
           ex_deployment_fk x ≠ dp_storage_id dp) →
  range_filters_fit Event rfs = true →
  ("cloudify_log" ∈ types → range_filters_fit Log rfs = true) →
  unknown_sort_field unified_columns sort = None →
  ("cloudify_log" ∈ types →
   unknown_sort_field (labelled_names events_columns) sort = None) →
  0 <= pg_size p <= max_bigint → 0 <= pg_offset p <= max_bigint →
  (∀ q filters, _apply_filters q filters =
                Query_filter q (filter_criteria filters)) ∧
  filter_criteria d = [CIn Execution "id" xs; CIn Deployment "id" ys] ∧
  (∀ q t, Forall (fun c => holds t c) (criteria (_apply_filters q d)) ↔
          Forall (fun c => holds t c) (criteria q) ∧
          holds t (CIn Execution "id" xs) ∧
          holds t (CIn Deployment "id" ys)) ∧
  snd (run_queries s (FiltersDict d) p sort rfs _include) =
    Returned (mkResponse [] (VInt 0)).
Proof.
  intros Hd Hev Hxs Hys Hmis Hfit1 Hfit2 Hsort Hlabels Hsize Hoff.
  pose proof (range_filters_fit_unrecognized _ _ Hfit1) as Hrf1.
  assert (Hrf2 : "cloudify_log" ∈ types → unrecognized Log rfs = None).
  { intros Hlog. by apply range_filters_fit_unrecognized, Hfit2. }
  split; [apply apply_filters_criteria|].
  split; [by apply filters_both_criteria|]. split.
  { intros q t. rewrite apply_filters_criteria.
    rewrite (filters_both_criteria d xs ys) by done. simpl.
    rewrite Forall_app, Forall_cons, Forall_singleton. done. }
  assert (Hsel : ∀ cols m, existsb is_count cols = false →
            execute s (bound_params p) (source_query cols m d rfs) = Some []).
  { intros cols m Hcols. rewrite execute_source. unfold select_rows.
    rewrite Hcols, (source_query_mismatch s cols m d xs ys) by done. done. }
  assert (Hcnt : ∀ m,
            execute s (bound_params p) (source_query count_columns m d rfs)
            = Some [[VInt 0]]).
  { intros m. rewrite execute_source. unfold select_rows.
    rewrite (source_query_mismatch s count_columns m d xs ys) by done. done. }
  destruct (resolve_sort_keys unified_columns sort Hsort) as [keys Hkeys].
  unfold run_queries. change (<["offset":=_]> _) with (bound_params p).
  destruct (decide ("cloudify_log" ∈ types)) as [Hlog|Hlog].
  - rewrite (build_count_query_both d types) by auto.
    rewrite (build_select_query_both d types) by auto.
    unfold Query_scalar, count_rows, subquery_column.
    rewrite !Hcnt. simpl.
    unfold Query_all.
    erewrite execute_select_plan;
      [| |exact Hkeys|by apply (orderable_union_labels sort), Hlabels
       |done|done].
    2: { apply body_rows_union; [by apply Hsel|by apply Hsel|done]. }
    change (sort_rows keys _) with (@nil (list value)).
    by rewrite drop_nil, take_nil.
  - rewrite (build_count_query_events d types) by auto.
    rewrite (build_select_query_events d types) by auto.
    unfold Query_scalar, count_rows, subquery_column.
    rewrite !Hcnt. simpl.
    unfold Query_all.
    erewrite execute_select_plan;
      [| |exact Hkeys|apply orderable_plain|done|done].
    2: { change (body_rows s (bound_params p)
                   (source_query events_columns Event d rfs))
           with (select_rows s events_columns
                   (criteria (source_query events_columns Event d rfs))).
         unfold select_rows.
         rewrite (source_query_mismatch s events_columns Event d xs ys) by done.
         done. }
    change (sort_rows keys _) with (@nil (list value)).
    by rewrite drop_nil, take_nil.
Qed.

Lemma mismatched_filters_select_nothing_witness :
  snd (run_queries sample_store (FiltersDict mismatched_filters)
                   (mkPagination 10 0) sample_sort sample_range_filters None)
  = Returned (mkResponse [] (VInt 0)).
Proof.
  apply (mismatched_filters_select_nothing sample_store mismatched_filters
           ["cloudify_event"; "cloudify_log"] ["exec_1"] ["dep_2"]
           (mkPagination 10 0) sample_sort sample_range_filters None).
  - reflexivity.
  - by_decide.
  - reflexivity.
  - reflexivity.
  - intros x dp Hx Hdp Hxs Hys.
    apply list_elem_of_singleton in Hxs, Hys.
    unfold sample_store in Hx, Hdp. simpl in Hx, Hdp.
    apply elem_of_cons in Hx as [->|Hx];
      [|apply list_elem_of_singleton in Hx as ->; discriminate Hxs].
    apply elem_of_cons in Hdp as [->|Hdp]; [discriminate Hys|].
    apply list_elem_of_singleton in Hdp as ->. simpl. lia.
  - reflexivity.
  - intros _. reflexivity.
  - reflexivity.
  - intros _. reflexivity.
  - unfold max_bigint. simpl. lia.
  - unfold max_bigint. simpl. lia.
Defined.

(** *** Rows of the selection and of the count *)

Lemma project_events (t : tuple) (e : EventRow) (d : DeploymentRow) :
  t_event t = Some e → t_deployment t = Some d →
  project events_columns t = Some (event_row e d).
Proof.
  intros He Hd. unfold project, events_columns. simpl.
  rewrite He, Hd. reflexivity.
Qed.

Lemma project_logs (t : tuple) (l : LogRow) (d : DeploymentRow) :
  t_log t = Some l → t_deployment t = Some d →
  project logs_columns t = Some (log_row l d).
Proof.
  intros Hl Hd. unfold project, logs_columns. simpl.
  rewrite Hl, Hd. reflexivity.
Qed.

(** The event side of the selection: one row of event cells for every
    matching row of the join. *)
Lemma select_rows_events (s : store) (cs : list criterion) :
  ∃ rows,
    select_rows s events_columns cs = Some rows ∧
    length rows = length (matching s events_columns cs) ∧
    Forall is_event_row rows.
Proof.
  unfold select_rows.
  change (existsb is_count events_columns) with false. cbv iota.
  assert (Hall : Forall (fun t => ∃ e d, project events_columns t
                                         = Some (event_row e d))
                        (matching s events_columns cs)).
  { apply Forall_forall. intros t [_ Hjoin]%matching_elem.
    destruct (cross_join_event _ _ _ Hjoin) as (e & He & _).
    { eapply (from_models_column _ _ (label (attr_column Event "timestamp")
                                            "timestamp")); [left|left]. }
    destruct (cross_join_deployment _ _ _ Hjoin) as (d & Hd & _).
    { eapply (from_models_column _ _ (label (attr_column Deployment "id")
                                            "deployment_id"));
        [right; left|left]. }
    exists e, d. by apply project_events. }
  destruct (mapM (project events_columns) (matching s events_columns cs))
    as [rows|] eqn:E.
  - exists rows. split; [done|]. apply mapM_Some_1 in E.
    split; [symmetry; by eapply Forall2_length|].
    induction E as [|t r ts rs Hp E IH]; [constructor|].
    apply Forall_cons in Hall as [(e & d & Ht) Hall].
    constructor; [|by apply IH]. exists e, d. congruence.
  - apply mapM_None_1, Exists_exists in E as (t & Ht & Hnone).
    rewrite Forall_forall in Hall.
    destruct (Hall t Ht) as (e & d & Hp). congruence.
Qed.

(** The log side of the selection. *)
Lemma select_rows_logs (s : store) (cs : list criterion) :
  ∃ rows,
    select_rows s logs_columns cs = Some rows ∧
    length rows = length (matching s logs_columns cs) ∧
    Forall is_log_row rows.
Proof.
  unfold select_rows.
  change (existsb is_count logs_columns) with false. cbv iota.
  assert (Hall : Forall (fun t => ∃ l d, project logs_columns t
                                         = Some (log_row l d))
                        (matching s logs_columns cs)).
  { apply Forall_forall. intros t [_ Hjoin]%matching_elem.
    destruct (cross_join_log _ _ _ Hjoin) as (l & Hl & _).
    { eapply (from_models_column _ _ (label (attr_column Log "timestamp")
                                            "timestamp")); [left|left]. }
    destruct (cross_join_deployment _ _ _ Hjoin) as (d & Hd & _).
    { eapply (from_models_column _ _ (label (attr_column Deployment "id")
                                            "deployment_id"));
        [right; left|left]. }
    exists l, d. by apply project_logs. }
  destruct (mapM (project logs_columns) (matching s logs_columns cs))
    as [rows|] eqn:E.
  - exists rows. split; [done|]. apply mapM_Some_1 in E.
    split; [symmetry; by eapply Forall2_length|].
    induction E as [|t r ts rs Hp E IH]; [constructor|].
    apply Forall_cons in Hall as [(l & d & Ht) Hall].
    constructor; [|by apply IH]. exists l, d. congruence.
  - apply mapM_None_1, Exists_exists in E as (t & Ht & Hnone).
    rewrite Forall_forall in Hall.
    destruct (Hall t Ht) as (l & d & Hp). congruence.
Qed.

(** A count query has one row, holding the number of matching rows. *)
Lemma select_rows_count (s : store) (cs : list criterion) :
  select_rows s count_columns cs =
  Some [[VInt (Z.of_nat (length (matching s count_columns cs)))]].
Proof. reflexivity. Qed.


Lemma sort_rows_Forall (P : list value → Prop) (keys : list (direction * nat))
    (rows : list (list value)) :
  Forall P rows → Forall P (sort_rows keys rows).
Proof. unfold sort_rows. by rewrite merge_sort_Permutation. Qed.

Lemma sort_rows_length (keys : list (direction * nat))
    (rows : list (list value)) :
  length (sort_rows keys rows) = length rows.
Proof. unfold sort_rows. by rewrite merge_sort_Permutation. Qed.

Lemma execute_events_source (s : store) (params : gmap string Z)
    (d : gmap string (list string))
    (rfs : list (string * gmap string value)) :
  ∃ rows,
    execute s params (source_query events_columns Event d rfs) = Some rows ∧
    Forall is_event_row rows.
Proof.
  rewrite execute_source.
  destruct (select_rows_events s
              (criteria (source_query events_columns Event d rfs)))
    as (rows & -> & _ & Hrows).
  eexists. split; [done|]. by apply sort_rows_Forall.
Qed.

Lemma execute_logs_source (s : store) (params : gmap string Z)
    (d : gmap string (list string))
    (rfs : list (string * gmap string value)) :
  ∃ rows,
    execute s params (source_query logs_columns Log d rfs) = Some rows ∧
    Forall is_log_row rows.
Proof.
  rewrite execute_source.
  destruct (select_rows_logs s
              (criteria (source_query logs_columns Log d rfs)))
    as (rows & -> & _ & Hrows).
  eexists. split; [done|]. by apply sort_rows_Forall.
Qed.

Lemma execute_count_source (s : store) (params : gmap string Z) (m : model)
    (d : gmap string (list string))
    (rfs : list (string * gmap string value)) :
  execute s params (source_query count_columns m d rfs) =
  Some [[VInt (count_of s m d rfs)]].
Proof. by rewrite execute_source, select_rows_count. Qed.

Lemma zip_unified (r : list value) :
  is_event_row r ∨ is_log_row r → unified_row (zip unified_columns r).
Proof. by intros [(e & d & ->)|(l & d & ->)]. Qed.

Lemma map_events_ok (_include : option (list string)) (rows : list sql_row) :
  Forall unified_row rows →
  ∃ events,
    map_events _include rows = Ok events ∧ length events = length rows.
Proof.
  induction 1 as [|row rows Hrow _ (events & IH & Hlen)]; [by eexists|].
  destruct (map_unified_row_common row Hrow) as (full & Hfull & _).
  simpl. destruct _include as [inc|].
  - rewrite (map_event_include inc row full Hfull). simpl. rewrite IH. simpl.
    eexists. split; [done|]. simpl. by rewrite Hlen.
  - rewrite Hfull. simpl. rewrite IH. simpl.
    eexists. split; [done|]. simpl. by rewrite Hlen.
Qed.

(** The count query has no bound parameter: whatever is bound when it
    runs, it yields the number of matching events, plus the number of
    matching logs when logs are asked for. *)
Lemma count_query_scalar (s : store) (d : gmap string (list string))
    (types : list string) (rfs : list (string * gmap string value)) :
  d !! "type" = Some types → "cloudify_event" ∈ types →
  unrecognized Event rfs = None →
  ("cloudify_log" ∈ types → unrecognized Log rfs = None) →
  ∃ cq,
    _build_count_query (FiltersDict d) rfs = Ok cq ∧
    ∀ params,
      Query_scalar s params cq = Some (VInt (expected_total s d types rfs)).
Proof.
  intros Hd Hev Hrf1 Hrf2. unfold expected_total.
  destruct (decide ("cloudify_log" ∈ types)) as [Hlog|Hlog].
  - eexists. split; [by apply (build_count_query_both d types); auto|].
    intros params. unfold Query_scalar, count_rows, subquery_column.
    by rewrite !execute_count_source.
  - eexists. split; [by apply (build_count_query_events d types)|].
    intros params. unfold Query_scalar, count_rows, subquery_column.
    rewrite !execute_count_source. simpl. by rewrite Z.add_0_r.
Qed.

(** C1.  In the sample store [exec_1] has two events that agree on every
    selected column, and one log.  Asked for events and logs, the request
    reports a total of 3, the sum of the two counts, but returns 2 hits:
    the UNION keeps one of the two equal event rows.  Asked for events
    only, it reports 2 and returns both. *)
Theorem union_drops_equal_rows :
  response_summary (snd (_query_events sample_store both_types_request))
    = Some (VInt 3, 2%nat) ∧
  response_summary (snd (_query_events sample_store events_only_request))
    = Some (VInt 2, 2%nat).
Proof. split; vm_compute; reflexivity. Qed.

(** *** Selection and count over events and logs *)

Lemma cross_join_ext (s : store) (ms1 ms2 : list model) :
  (∀ m, m ∈ ms1 ↔ m ∈ ms2) → cross_join s ms1 = cross_join s ms2.
Proof.
  intros H. unfold cross_join.
  by rewrite (bool_decide_ext _ _ (H Event)), (bool_decide_ext _ _ (H Log)),
    (bool_decide_ext _ _ (H Execution)), (bool_decide_ext _ _ (H Deployment)).
Qed.

(** The selection and the count of one side range over the same rows of
    the join: the selected columns mention no table that the ownership
    criteria do not. *)
Lemma matching_select_count (s : store) (cols : list column) (m : model)
    (d : gmap string (list string))
    (rfs : list (string * gmap string value)) :
  (∀ x, x ∈ cols ≫= (fun c => expr_models (col_expr c)) →
        x = m ∨ x = Deployment) →
  matching s cols (criteria (source_query cols m d rfs)) =
  matching s count_columns (criteria (source_query count_columns m d rfs)).
Proof.
  intros Hcols. unfold matching.
  change (criteria (source_query count_columns m d rfs))
    with (criteria (source_query cols m d rfs)).
  f_equal. apply cross_join_ext. intros x. unfold from_models.
  rewrite !elem_of_app. split; [|by intros [[]%elem_of_nil|]; right].
  intros [Hx|Hx]; [|by right]. right.
  apply list_elem_of_bind.
  destruct (Hcols x Hx) as [->| ->].
  - exists (CEq m "_execution_fk" Execution "_storage_id").
    split; [by left|]. simpl. by left.
  - exists (CEq Execution "_deployment_fk" Deployment "_storage_id").
    split; [simpl; by right; left|]. simpl. by right; left.
Qed.

Lemma events_columns_models (x : model) :
  x ∈ events_columns ≫= (fun c => expr_models (col_expr c)) →
  x = Event ∨ x = Deployment.
Proof.
  simpl. intros H.
  repeat (apply elem_of_cons in H as [->|H]; [by auto|]).
  by apply elem_of_nil in H.
Qed.

Lemma logs_columns_models (x : model) :
  x ∈ logs_columns ≫= (fun c => expr_models (col_expr c)) →
  x = Log ∨ x = Deployment.
Proof.
  simpl. intros H.
  repeat (apply elem_of_cons in H as [->|H]; [by auto|]).
  by apply elem_of_nil in H.
Qed.

Lemma remove_dups_length_le {A} `{EqDecision A} (l : list A) :
  (length (remove_dups l) ≤ length l)%nat.
Proof.
  induction l as [|x l IH]; [done|]. simpl.
  destruct (decide_rel elem_of x l); simpl; lia.
Qed.

Lemma remove_dups_NoDup {A} `{EqDecision A} (l : list A) :
  NoDup l → remove_dups l = l.
Proof.
  induction 1 as [|x l Hx _ IH]; [done|]. simpl.
  destruct (decide_rel elem_of x l); [done|]. by rewrite IH.
Qed.

(** An event row is not a log row: the tags differ. *)
Lemma event_row_not_log_row (r : list value) :
  is_event_row r → is_log_row r → False.
Proof. intros (e & d & ->) (l & d' & H). discriminate H. Qed.

(** Events and logs together.  The selection is the UNION of the rows of
    the matching events and the rows of the matching logs, sorted and
    windowed; the count is the number of matching events plus the number
    of matching logs.  The UNION keeps one copy of equal rows, so it has at
    most as many rows as the count says, and as many when no two of the
    rows are equal. *)
Lemma both_types_selection (s : store) (d : gmap string (list string))
    (types : list string) (p : pagination) (sort : list (string * string))
    (rfs : list (string * gmap string value)) :
  d !! "type" = Some types →
  "cloudify_event" ∈ types → "cloudify_log" ∈ types →
  unrecognized Event rfs = None → unrecognized Log rfs = None →
  unknown_sort_field unified_columns sort = None →
  unknown_sort_field (labelled_names events_columns) sort = None →
  0 <= pg_size p <= max_bigint → 0 <= pg_offset p <= max_bigint →
  ∃ q cq r1 r2 keys,
    _build_select_query (FiltersDict d) p sort rfs = Ok q ∧
    _build_count_query (FiltersDict d) rfs = Ok cq ∧
    Forall is_event_row r1 ∧ Forall is_log_row r2 ∧
    Z.of_nat (length r1) = count_of s Event d rfs ∧
    Z.of_nat (length r2) = count_of s Log d rfs ∧
    (∀ params,
       Query_scalar s params cq =
       Some (VInt (Z.of_nat (length r1) + Z.of_nat (length r2)))) ∧
    execute s (bound_params p) q =
      Some (take (Z.to_nat (pg_size p))
              (drop (Z.to_nat (pg_offset p))
                 (sort_rows keys (remove_dups (r1 ++ r2))))) ∧
    (length (remove_dups (r1 ++ r2)) ≤ length r1 + length r2)%nat ∧
    (NoDup (r1 ++ r2) →
     length (remove_dups (r1 ++ r2)) = (length r1 + length r2)%nat).
Proof.
  intros Hd Hev Hlog Hrf1 Hrf2 Hsort Hlabels Hsize Hoff.
  destruct (resolve_sort_keys unified_columns sort Hsort) as [keys Hkeys].
  destruct (select_rows_events s
              (criteria (source_query events_columns Event d rfs)))
    as (rows1 & Hsel1 & Hlen1 & Hall1).
  destruct (select_rows_logs s
              (criteria (source_query logs_columns Log d rfs)))
    as (rows2 & Hsel2 & Hlen2 & Hall2).
  rewrite (matching_select_count s events_columns Event d rfs
             events_columns_models) in Hlen1.
  rewrite (matching_select_count s logs_columns Log d rfs
             logs_columns_models) in Hlen2.
  destruct (count_query_scalar s d types rfs) as (cq & Hcq & Hscalar);
    [done..|by auto|].
  exists (select_plan (Query_union (source_query events_columns Event d rfs)
                                   (source_query logs_columns Log d rfs)) sort),
    cq, (sort_rows [] rows1), (sort_rows [] rows2), keys.
  split; [by apply (build_select_query_both d types)|]. split; [done|].
  split; [by apply sort_rows_Forall|]. split; [by apply sort_rows_Forall|].
  rewrite !sort_rows_length.
  split; [unfold count_of; by rewrite Hlen1|].
  split; [unfold count_of; by rewrite Hlen2|]. split.
  { intros params. rewrite Hscalar. unfold expected_total, count_of.
    by rewrite decide_True, Hlen1, Hlen2. }
  split.
  { apply execute_select_plan;
      [|done|by apply (orderable_union_labels sort)|done..].
    apply body_rows_union; [| |done].
    - by rewrite execute_source, Hsel1.
    - by rewrite execute_source, Hsel2. }
  split.
  - rewrite <- (sort_rows_length [] rows1), <- (sort_rows_length [] rows2),
      <- length_app.
    apply remove_dups_length_le.
  - intros Hnodup. rewrite remove_dups_NoDup by done.
    by rewrite length_app, !sort_rows_length.
Qed.

(** *** Stripping the legacy prefix *)

Lemma lstrip_prefixed (s : string) :
  lstrip "@" (String "@" s) = lstrip "@" s.
Proof. reflexivity. Qed.

Lemma lstrip_plain (a : ascii) (s : string) :
  a ≠ "@"%char → lstrip "@" (String a s) = String a s.
Proof. intros H. simpl. by rewrite (proj2 (Ascii.eqb_neq a "@") H). Qed.

Example lstrip_timestamp :
  lstrip "@" "@timestamp" = "timestamp" ∧
  lstrip "@" "timestamp" = "timestamp" ∧
  lstrip "@" "@@timestamp" = "timestamp".
Proof. by repeat split. Qed.

(** ** More on the result mapper *)

Lemma foldl_insert_lookup_None (row : sql_row) (acc : gmap string pyval)
    (k : string) :
  foldl (fun m kv => <[kv.1 := to_py kv.2]> m) acc row !! k = None ↔
  acc !! k = None ∧ k ∉ row.*1.
Proof.
  revert acc. induction row as [|[k' v] row IH]; intros acc; simpl.
  - split; [|by intros [? _]]. intros H. split; [done|]. apply not_elem_of_nil.
  - rewrite IH, lookup_insert_None, not_elem_of_cons. simpl.
    split; [intros [[? ?] ?]|intros [? [? ?]]]; repeat split;
      try done; by apply not_eq_sym.
Qed.

Lemma row_to_dict_lookup_None (row : sql_row) (k : string) :
  row_to_dict row !! k = None ↔ k ∉ row.*1.
Proof.
  unfold row_to_dict. rewrite foldl_insert_lookup_None, lookup_empty.
  split; [by intros [_ ?]|by intros ?].
Qed.

Lemma first_missing_cons (k : string) (ks : list string) (row : sql_row) :
  first_missing (k :: ks) row =
  match row_to_dict row !! k with
  | Some _ => first_missing ks row
  | None => Some k
  end.
Proof.
  unfold first_missing. destruct (row_to_dict row !! k) as [v|] eqn:E.
  - rewrite filter_cons_False; [done|]. intros H.
    apply row_to_dict_lookup_None in H. congruence.
  - rewrite filter_cons_True; [done|]. by apply row_to_dict_lookup_None.
Qed.

Lemma first_missing_nil (row : sql_row) : first_missing [] row = None.
Proof. reflexivity. Qed.

Ltac run_mapper_on m :=
  repeat progress
    (try unfold getitem at 1; try unfold delitem at 1;
     eval_lookups;
     repeat match goal with H : m !! _ = _ |- _ => rewrite H end;
     cbn [bind collect_fields delete_fields context_fields]).

(** X1.  The mapper succeeds exactly on the rows that have every label it
    reads or deletes: the six it always reads, ['logger'] and ['level'] for
    a row tagged as an event, ['event_type'] for a row tagged as a log.  On
    any other row it raises [KeyError] for the first of these labels, in
    the order it gets to them, that the row lacks. *)
Theorem map_event_needs_labels (_include : option (list string))
    (row : sql_row) :
  match first_missing (needed_labels row) row with
  | Some k => _map_event_to_es _include row = Raise (KeyError k)
  | None => ∃ record, _map_event_to_es _include row = Ok record
  end.
Proof.
  unfold needed_labels, required_labels. cbn [app].
  unfold _map_event_to_es. set (m := row_to_dict row). cbv zeta.
  rewrite !first_missing_cons. fold m.
  destruct (m !! "timestamp") as [ts|] eqn:Hts; [|by run_mapper_on m].
  destruct (m !! "message") as [msg|] eqn:Hmsg; [|by run_mapper_on m].
  destruct (m !! "deployment_id") as [dep|] eqn:Hdep; [|by run_mapper_on m].
  destruct (m !! "operation") as [op|] eqn:Hop; [|by run_mapper_on m].
  destruct (m !! "node_id") as [node|] eqn:Hnode; [|by run_mapper_on m].
  destruct (m !! "type") as [ty|] eqn:Hty; [|by run_mapper_on m].
  unfold tag_labels.
  destruct (py_eq_str ty "cloudify_event") eqn:Hev;
    [|destruct (py_eq_str ty "cloudify_log") eqn:Hlog].
  - rewrite !first_missing_cons, first_missing_nil. fold m.
    destruct (m !! "logger") as [lg|] eqn:Hlg;
      [destruct (m !! "level") as [lv|] eqn:Hlv|]; try eexists;
      run_mapper_on m; rewrite Hev; unfold set_message_arguments;
      run_mapper_on m; reflexivity.
  - rewrite !first_missing_cons, first_missing_nil. fold m.
    destruct (m !! "event_type") as [et|] eqn:Het; try eexists;
      run_mapper_on m; rewrite Hev, Hlog; run_mapper_on m; reflexivity.
  - rewrite first_missing_nil. eexists.
    run_mapper_on m. rewrite Hev, Hlog. reflexivity.
Qed.

Example map_event_missing_labels :
  _map_event_to_es None row_without_node_id = Raise (KeyError "node_id") ∧
  _map_event_to_es None log_row_without_event_type
    = Raise (KeyError "event_type").
Proof. split; vm_compute; reflexivity. Qed.

(** A failure of the mapper does not depend on the projection list. *)
Lemma map_event_include_raise (inc : list string) (row : sql_row)
    (e : exception) :
  _map_event_to_es None row = Raise e →
  _map_event_to_es (Some inc) row = Raise e.
Proof.
  unfold _map_event_to_es. intros H.
  repeat match type of H with
         | bind ?a _ = _ =>
             destruct a eqn:?; cbn [bind] in *; [|exact H]
         end.
  discriminate H.
Qed.

Lemma keyfilter_ext (inc inc' : list string) (m : gmap string pyval) :
  (∀ k, k ∈ inc ↔ k ∈ inc') → keyfilter inc m = keyfilter inc' m.
Proof.
  intros H. apply map_eq. intros k. rewrite !keyfilter_lookup.
  destruct (decide (k ∈ inc)) as [Hin|Hin], (decide (k ∈ inc')) as [Hin'|Hin'];
    try done; [by apply H in Hin | by apply H in Hin'].
Qed.

(** X2.  Only the set of names in the projection list matters: two lists
    with the same names, in any order and with any repetitions, give the
    same record (or the same error). *)
Theorem map_event_projection_names (inc inc' : list string) (row : sql_row) :
  (∀ k, k ∈ inc ↔ k ∈ inc') →
  _map_event_to_es (Some inc) row = _map_event_to_es (Some inc') row.
Proof.
  intros H. destruct (_map_event_to_es None row) as [full|e] eqn:E.
  - rewrite (map_event_include inc row full E),
      (map_event_include inc' row full E).
    by rewrite (keyfilter_ext inc inc').
  - by rewrite (map_event_include_raise inc row e E),
      (map_event_include_raise inc' row e E).
Qed.

Lemma map_event_projection_names_witness :
  _map_event_to_es (Some ["message"; "@timestamp"]) sample_event_row =
  _map_event_to_es (Some ["@timestamp"; "message"; "@timestamp"])
                   sample_event_row.
Proof.
  apply (map_event_projection_names ["message"; "@timestamp"]
           ["@timestamp"; "message"; "@timestamp"] sample_event_row).
  intros k. rewrite !elem_of_cons, !elem_of_nil. tauto.
Defined.

(** ** More on the query compiler *)

Lemma matching_unsatisfiable (s : store) (cols : list column)
    (cs : list criterion) (c : criterion) :
  c ∈ cs → (∀ t, ¬ holds t c) → matching s cols cs = [].
Proof.
  intros Hc Hnever. apply elem_of_nil_inv. intros t [Hall _]%matching_elem.
  rewrite Forall_forall in Hall. by apply (Hnever t), Hall.
Qed.

Lemma mapM_elem {A B} (f : A → option B) (l : list A) (k : list B) (y : B) :
  mapM f l = Some k → y ∈ k ↔ ∃ x, x ∈ l ∧ f x = Some y.
Proof.
  intros H%mapM_Some_1. induction H as [|x y' l k Hxy _ IH].
  - split; [by intros ?%elem_of_nil|by intros (? & ?%elem_of_nil & _)].
  - rewrite elem_of_cons, IH. split.
    + intros [->|(x' & ? & ?)];
        [exists x; split; [left|done]|exists x'; split; [by right|done]].
    + intros (x' & [->|?]%elem_of_cons & Hf);
        [left; congruence|right; by exists x'].
Qed.

(** The tables a side of the selection ranges over: its model, the
    executions and the deployments. *)
Lemma source_models (cols : list column) (m : model)
    (d : gmap string (list string))
    (rfs : list (string * gmap string value)) (x : model) :
  (∀ x, x ∈ cols ≫= (fun c => expr_models (col_expr c)) →
        x = m ∨ x = Deployment) →
  x ∈ from_models cols (criteria (source_query cols m d rfs)) ↔
  x = m ∨ x = Execution ∨ x = Deployment.
Proof.
  intros Hcols. split.
  - unfold from_models. intros [Hx|Hx]%elem_of_app.
    { destruct (Hcols x Hx) as [->| ->]; auto. }
    apply list_elem_of_bind in Hx as (c & Hx & Hc). simpl in Hc.
    rewrite !elem_of_cons in Hc.
    destruct Hc as [->|[->|Hc]].
    { simpl in Hx. rewrite !elem_of_cons in Hx.
      destruct Hx as [->|[->|[]%elem_of_nil]]; auto. }
    { simpl in Hx. rewrite !elem_of_cons in Hx.
      destruct Hx as [->|[->|[]%elem_of_nil]]; auto. }
    apply elem_of_app in Hc as [Hc|Hc].
    + unfold filter_criteria in Hc.
      destruct (d !! "execution_id"), (d !! "deployment_id"); simpl in Hc;
        rewrite ?elem_of_cons in Hc;
        repeat (destruct Hc as [->|Hc];
                [apply list_elem_of_singleton in Hx as ->; auto|]);
        by apply elem_of_nil in Hc.
    + apply list_elem_of_bind in Hc as ([f rf] & Hc & _).
      unfold bound_criteria in Hc. simpl in Hc.
      destruct (rf !! "from"), (rf !! "to"); simpl in Hc;
        rewrite ?elem_of_cons in Hc;
        repeat (destruct Hc as [->|Hc];
                [apply list_elem_of_singleton in Hx as ->; auto|]);
        by apply elem_of_nil in Hc.
  - intros [->|[->| ->]].
    + apply (from_models_criterion _ _
               (CEq m "_execution_fk" Execution "_storage_id"));
        [left|left].
    + apply (from_models_criterion _ _
               (CEq m "_execution_fk" Execution "_storage_id"));
        [left|right; left].
    + apply (from_models_criterion _ _
               (CEq Execution "_deployment_fk" Deployment "_storage_id"));
        [right; left|right; left].
Qed.

Lemma sql_eq_int_iff (a b : Z) : sql_eq (VInt a) (VInt b) ↔ a = b.
Proof.
  unfold sql_eq. simpl. rewrite bool_decide_spec. apply Z.compare_eq_iff.
Qed.

Lemma holds_ownership (m : model) (t : tuple) (fk : Z) (x : ExecutionRow)
    (dp : DeploymentRow) :
  tuple_attr t m "_execution_fk" = Some (VInt fk) →
  t_execution t = Some x → t_deployment t = Some dp →
  Forall (fun c => holds t c) (ownership m) ↔
  fk = ex_storage_id x ∧ ex_deployment_fk x = dp_storage_id dp.
Proof.
  intros Hfk Hx Hdp. unfold ownership.
  rewrite Forall_cons, Forall_singleton. simpl. rewrite Hfk, Hx, Hdp. simpl.
  by rewrite !sql_eq_int_iff.
Qed.

Lemma holds_in_iff (a : string) (vals : list string) :
  bool_decide (VStr a ∈ VStr <$> vals) ↔ a ∈ vals.
Proof.
  rewrite bool_decide_spec, list_elem_of_fmap. split.
  - by intros (y & [= ->] & ?).
  - intros ?. by exists a.
Qed.

Lemma holds_filter_criteria (t : tuple) (d : gmap string (list string))
    (x : ExecutionRow) (dp : DeploymentRow) :
  t_execution t = Some x → t_deployment t = Some dp →
  Forall (fun c => holds t c) (filter_criteria d) ↔
  (∀ xs, d !! "execution_id" = Some xs → ex_id x ∈ xs) ∧
  (∀ ys, d !! "deployment_id" = Some ys → dp_id dp ∈ ys).
Proof.
  intros Hx Hdp. unfold filter_criteria.
  destruct (d !! "execution_id") as [xs|], (d !! "deployment_id") as [ys|];
    simpl; rewrite ?Forall_cons, ?Forall_nil; simpl; rewrite ?Hx, ?Hdp; simpl;
    rewrite ?holds_in_iff; split.
  - intros (? & ? & _). by split; intros ? [= <-].
  - intros [H1 H2]. split; [by apply H1|split; [by apply H2|done]].
  - intros (? & _). by split; [intros ? [= <-]|].
  - intros [H1 _]. split; [by apply H1|done].
  - intros (? & _). by split; [|intros ? [= <-]].
  - intros [_ H2]. split; [by apply H2|done].
  - done.
  - done.
Qed.

(** The rows of the join behind the event side of the selection: an event,
    the execution it belongs to and the deployment of that execution, with
    the filters and the range filters satisfied. *)
Lemma matching_events_elem (s : store) (cols : list column)
    (d : gmap string (list string))
    (rfs : list (string * gmap string value)) (t : tuple) :
  (∀ x, x ∈ cols ≫= (fun c => expr_models (col_expr c)) →
        x = Event ∨ x = Deployment) →
  t ∈ matching s cols (criteria (source_query cols Event d rfs)) ↔
  ∃ e x dp, t = mkTuple (Some e) None (Some x) (Some dp) ∧
            e ∈ events s ∧ owned_by s d (ev_execution_fk e) x dp ∧
            in_range (event_attrs e) rfs.
Proof.
  intros Hcols. rewrite matching_elem, cross_join_elem.
  rewrite (bool_decide_true (Event ∈ _)), (bool_decide_false (Log ∈ _)),
    (bool_decide_true (Execution ∈ _)), (bool_decide_true (Deployment ∈ _));
    [|rewrite source_models by done; by auto..| |rewrite source_models by done; by auto].
  2: { rewrite source_models by done. by intros [|[|]]. }
  rewrite !table_used. unfold table. rewrite list_elem_of_singleton.
  destruct t as [oe ol ox od].
  cbn [t_event t_log t_execution t_deployment]. split.
  - intros (Hall & (e & -> & He) & -> & (x & -> & Hx) & (dp & -> & Hdp)).
    exists e, x, dp. split; [done|]. split; [done|].
    change (criteria _) with
      (ownership Event ++ filter_criteria d ++ range_criteria Event rfs)
      in Hall.
    rewrite !Forall_app in Hall. destruct Hall as (Hown & Hfil & Hrng).
    rewrite (holds_ownership Event _ (ev_execution_fk e) x dp) in Hown by done.
    rewrite (holds_filter_criteria _ d x dp) in Hfil by done.
    rewrite holds_range_criteria in Hrng.
    destruct Hown as [? ?], Hfil as [? ?].
    split; [by unfold owned_by|exact Hrng].
  - intros (e & x & dp & [= -> -> -> ->] & He & Hown & Hrng).
    destruct Hown as (Hx & Hdp & Hfk & Hdfk & Hxs & Hys).
    split; [|by eauto 10].
    change (criteria _) with
      (ownership Event ++ filter_criteria d ++ range_criteria Event rfs).
    rewrite !Forall_app.
    rewrite (holds_ownership Event _ (ev_execution_fk e) x dp) by done.
    rewrite (holds_filter_criteria _ d x dp) by done.
    split; [done|]. split; [done|]. apply holds_range_criteria. exact Hrng.
Qed.

Lemma matching_logs_elem (s : store) (cols : list column)
    (d : gmap string (list string))
    (rfs : list (string * gmap string value)) (t : tuple) :
  (∀ x, x ∈ cols ≫= (fun c => expr_models (col_expr c)) →
        x = Log ∨ x = Deployment) →
  t ∈ matching s cols (criteria (source_query cols Log d rfs)) ↔
  ∃ l x dp, t = mkTuple None (Some l) (Some x) (Some dp) ∧
            l ∈ logs s ∧ owned_by s d (lg_execution_fk l) x dp ∧
            in_range (log_attrs l) rfs.
Proof.
  intros Hcols. rewrite matching_elem, cross_join_elem.
  rewrite (bool_decide_false (Event ∈ _)), (bool_decide_true (Log ∈ _)),
    (bool_decide_true (Execution ∈ _)), (bool_decide_true (Deployment ∈ _));
    [|rewrite source_models by done; by auto..|].
  2: { rewrite source_models by done. by intros [|[|]]. }
  rewrite !table_used. unfold table. rewrite list_elem_of_singleton.
  destruct t as [oe ol ox od].
  cbn [t_event t_log t_execution t_deployment]. split.
  - intros (Hall & -> & (l & -> & Hl) & (x & -> & Hx) & (dp & -> & Hdp)).
    exists l, x, dp. split; [done|]. split; [done|].
    change (criteria _) with
      (ownership Log ++ filter_criteria d ++ range_criteria Log rfs)
      in Hall.
    rewrite !Forall_app in Hall. destruct Hall as (Hown & Hfil & Hrng).
    rewrite (holds_ownership Log _ (lg_execution_fk l) x dp) in Hown by done.
    rewrite (holds_filter_criteria _ d x dp) in Hfil by done.
    rewrite holds_range_criteria in Hrng.
    destruct Hown as [? ?], Hfil as [? ?].
    split; [by unfold owned_by|exact Hrng].
  - intros (l & x & dp & [= -> -> -> ->] & Hl & Hown & Hrng).
    destruct Hown as (Hx & Hdp & Hfk & Hdfk & Hxs & Hys).
    split; [|by eauto 10].
    change (criteria _) with
      (ownership Log ++ filter_criteria d ++ range_criteria Log rfs).
    rewrite !Forall_app.
    rewrite (holds_ownership Log _ (lg_execution_fk l) x dp) by done.
    rewrite (holds_filter_criteria _ d x dp) by done.
    split; [done|]. split; [done|]. apply holds_range_criteria. exact Hrng.
Qed.

Lemma select_events_elem (s : store) (d : gmap string (list string))
    (rfs : list (string * gmap string value)) (rows : list (list value))
    (r : list value) :
  select_rows s events_columns
    (criteria (source_query events_columns Event d rfs)) = Some rows →
  r ∈ rows ↔ selected_event s d rfs r.
Proof.
  unfold select_rows. change (existsb is_count events_columns) with false.
  cbv iota. intros H. rewrite (mapM_elem _ _ _ _ H). split.
  - intros (t & Ht & Hp).
    apply matching_events_elem in Ht as (e & x & dp & -> & He & Hown & Hrng);
      [|apply events_columns_models].
    exists e, x, dp. rewrite (project_events _ e dp) in Hp by done.
    do 3 (split; [done|]). congruence.
  - intros (e & x & dp & He & Hown & Hrng & ->).
    exists (mkTuple (Some e) None (Some x) (Some dp)). split.
    + apply matching_events_elem; [apply events_columns_models|by eauto 10].
    + by apply project_events.
Qed.

Lemma select_logs_elem (s : store) (d : gmap string (list string))
    (rfs : list (string * gmap string value)) (rows : list (list value))
    (r : list value) :
  select_rows s logs_columns
    (criteria (source_query logs_columns Log d rfs)) = Some rows →
  r ∈ rows ↔ selected_log s d rfs r.
Proof.
  unfold select_rows. change (existsb is_count logs_columns) with false.
  cbv iota. intros H. rewrite (mapM_elem _ _ _ _ H). split.
  - intros (t & Ht & Hp).
    apply matching_logs_elem in Ht as (l & x & dp & -> & Hl & Hown & Hrng);
      [|apply logs_columns_models].
    exists l, x, dp. rewrite (project_logs _ l dp) in Hp by done.
    do 3 (split; [done|]). congruence.
  - intros (l & x & dp & Hl & Hown & Hrng & ->).
    exists (mkTuple None (Some l) (Some x) (Some dp)). split.
    + apply matching_logs_elem; [apply logs_columns_models|by eauto 10].
    + by apply project_logs.
Qed.

(** A request that passes validation, step by step: the rows of the two
    sides, the rows the selection sorts and windows, the hits made from
    them and the total. *)
Lemma run_queries_rows (s : store) (d : gmap string (list string))
    (types : list string) (p : pagination) (sort : list (string * string))
    (rfs : list (string * gmap string value))
    (_include : option (list string)) :
  d !! "type" = Some types → "cloudify_event" ∈ types →
  range_filters_fit Event rfs = true →
  ("cloudify_log" ∈ types → range_filters_fit Log rfs = true) →
  unknown_sort_field unified_columns sort = None →
  ("cloudify_log" ∈ types →
   unknown_sort_field (labelled_names events_columns) sort = None) →
  0 <= pg_size p <= max_bigint → 0 <= pg_offset p <= max_bigint →
  ∃ q cq ev lg keys events,
    select_rows s events_columns
      (criteria (source_query events_columns Event d rfs)) = Some ev ∧
    select_rows s logs_columns
      (criteria (source_query logs_columns Log d rfs)) = Some lg ∧
    Z.of_nat (length ev) = count_of s Event d rfs ∧
    Z.of_nat (length lg) = count_of s Log d rfs ∧
    mapM (resolve_key unified_columns) (sort_keys sort) = Some keys ∧
    let base := if decide ("cloudify_log" ∈ types)
                then remove_dups (sort_rows [] ev ++ sort_rows [] lg)
                else ev in
    let rows := take (Z.to_nat (pg_size p))
                  (drop (Z.to_nat (pg_offset p)) (sort_rows keys base)) in
    _build_select_query (FiltersDict d) p sort rfs = Ok q ∧
    _build_count_query (FiltersDict d) rfs = Ok cq ∧
    execute s (bound_params p) q = Some rows ∧
    map_events _include (zip unified_columns <$> rows) = Ok events ∧
    run_queries s (FiltersDict d) p sort rfs _include =
      ([CountStatement cq; SelectStatement q],
       Returned (mkResponse events (VInt (expected_total s d types rfs)))).
Proof.
  intros Hd Hev Hfit1 Hfit2 Hsort Hlabels Hsize Hoff.
  pose proof (range_filters_fit_unrecognized _ _ Hfit1) as Hrf1.
  assert (Hrf2 : "cloudify_log" ∈ types → unrecognized Log rfs = None).
  { intros Hlog'. by apply range_filters_fit_unrecognized, Hfit2. }
  destruct (resolve_sort_keys unified_columns sort Hsort) as [keys Hkeys].
  destruct (select_rows_events s
              (criteria (source_query events_columns Event d rfs)))
    as (ev & Hsel1 & Hlen1 & Hall1).
  destruct (select_rows_logs s
              (criteria (source_query logs_columns Log d rfs)))
    as (lg & Hsel2 & Hlen2 & Hall2).
  rewrite (matching_select_count s events_columns Event d rfs
             events_columns_models) in Hlen1.
  rewrite (matching_select_count s logs_columns Log d rfs
             logs_columns_models) in Hlen2.
  destruct (count_query_scalar s d types rfs) as (cq & Hcq & Hscalar);
    [done..|].
  set (base := if decide ("cloudify_log" ∈ types)
               then remove_dups (sort_rows [] ev ++ sort_rows [] lg)
               else ev).
  set (rows := take (Z.to_nat (pg_size p))
                 (drop (Z.to_nat (pg_offset p)) (sort_rows keys base))).
  assert (Hbase : Forall (fun r => is_event_row r ∨ is_log_row r) base).
  { subst base. destruct (decide _).
    - apply Forall_forall. intros r [Hr|Hr]%elem_of_remove_dups%elem_of_app.
      + left. eapply Forall_forall; [|exact Hr]. by apply sort_rows_Forall.
      + right. eapply Forall_forall; [|exact Hr]. by apply sort_rows_Forall.
    - eapply Forall_impl; [exact Hall1|]. by left. }
  destruct (map_events_ok _include (zip unified_columns <$> rows))
    as (events & Hmap & _).
  { apply Forall_fmap, Forall_take, Forall_drop, sort_rows_Forall.
    eapply Forall_impl; [exact Hbase|]. intros r Hr. by apply zip_unified. }
  assert (Hfinish : ∀ q,
    _build_select_query (FiltersDict d) p sort rfs = Ok (select_plan q sort) →
    column_names q = unified_columns → ordering q = [] →
    forallb (orderable (entities q) (is_union (from_union q))) keys = true →
    body_rows s (bound_params p) q = Some base →
    execute s (bound_params p) (select_plan q sort) = Some rows ∧
    run_queries s (FiltersDict d) p sort rfs _include =
      ([CountStatement cq; SelectStatement (select_plan q sort)],
       Returned (mkResponse events (VInt (expected_total s d types rfs))))).
  { intros q Hq Hnames Hord Hable Hbody.
    pose proof (execute_select_plan s p q sort base keys Hbody) as Hrun.
    rewrite Hnames, Hord in Hrun. specialize (Hrun Hkeys Hable Hsize Hoff).
    fold rows in Hrun. split; [done|].
    unfold run_queries. change (<["offset":=_]> _) with (bound_params p).
    rewrite Hcq, Hscalar, Hq. unfold Query_all. rewrite Hrun. simpl.
    change (column_names (select_plan q sort)) with (column_names q).
    by rewrite Hnames, Hmap. }
  assert (Hcount1 : Z.of_nat (length ev) = count_of s Event d rfs).
  { unfold count_of. by rewrite Hlen1. }
  assert (Hcount2 : Z.of_nat (length lg) = count_of s Log d rfs).
  { unfold count_of. by rewrite Hlen2. }
  destruct (decide ("cloudify_log" ∈ types)) as [Hlog|Hlog].
  - destruct (Hfinish (Query_union (source_query events_columns Event d rfs)
                                   (source_query logs_columns Log d rfs)))
      as [Hrun Hall];
      [by apply (build_select_query_both d types); auto|done|done
      |by apply (orderable_union_labels sort), Hlabels| |].
    { apply body_rows_union; [| |done].
      - by rewrite execute_source, Hsel1.
      - by rewrite execute_source, Hsel2. }
    exists (select_plan
              (Query_union (source_query events_columns Event d rfs)
                           (source_query logs_columns Log d rfs)) sort),
      cq, ev, lg, keys, events.
    do 5 (split; [done|]). cbv zeta.
    split; [by apply (build_select_query_both d types); auto|].
    split; [done|]. done.
  - destruct (Hfinish (source_query events_columns Event d rfs))
      as [Hrun Hall];
      [by apply (build_select_query_events d types)|done|done
      |apply orderable_plain|done|].
    exists (select_plan (source_query events_columns Event d rfs) sort),
      cq, ev, lg, keys, events.
    do 5 (split; [done|]). cbv zeta.
    split; [by apply (build_select_query_events d types)|].
    split; [done|]. done.
Qed.

Lemma map_events_Forall2 (_include : option (list string))
    (rows : list sql_row) (events : list (gmap string pyval)) :
  map_events _include rows = Ok events →
  Forall2 (fun row h => _map_event_to_es _include row = Ok h) rows events.
Proof.
  revert events. induction rows as [|row rows IH]; intros events.
  - intros [= <-]. constructor.
  - cbn [map_events].
    destruct (_map_event_to_es _include row) as [h|e] eqn:E; cbn [bind];
      [|done].
    destruct (map_events _include rows) as [hs|e] eqn:E'; cbn [bind];
      [|done].
    intros [= <-]. constructor; [done|by apply IH].
Qed.

Lemma selection_base_elem (s : store) (d : gmap string (list string))
    (types : list string) (rfs : list (string * gmap string value))
    (ev lg : list (list value)) (r : list value) :
  select_rows s events_columns
    (criteria (source_query events_columns Event d rfs)) = Some ev →
  select_rows s logs_columns
    (criteria (source_query logs_columns Log d rfs)) = Some lg →
  r ∈ (if decide ("cloudify_log" ∈ types)
       then remove_dups (sort_rows [] ev ++ sort_rows [] lg) else ev) ↔
  selected_event s d rfs r ∨
  ("cloudify_log" ∈ types ∧ selected_log s d rfs r).
Proof.
  intros H1 H2. destruct (decide _) as [Hlog|Hlog].
  - rewrite elem_of_remove_dups, elem_of_app. unfold sort_rows.
    rewrite !merge_sort_Permutation.
    rewrite (select_events_elem _ _ _ _ _ H1), (select_logs_elem _ _ _ _ _ H2).
    split; [intros [?|?]; by auto|intros [?|[_ ?]]; by auto].
  - rewrite (select_events_elem _ _ _ _ _ H1).
    split; [by left|by intros [?|[? ?]]].
Qed.

(** What a request that passes validation returns: the rows of the
    selection are rows of events (and of logs, when asked for) that the
    filters let through, all of them when the window is wide enough; their
    number follows from the total and the window. *)
Lemma run_queries_selection (s : store) (d : gmap string (list string))
    (types : list string) (p : pagination) (sort : list (string * string))
    (rfs : list (string * gmap string value))
    (_include : option (list string)) :
  d !! "type" = Some types → "cloudify_event" ∈ types →
  range_filters_fit Event rfs = true →
  ("cloudify_log" ∈ types → range_filters_fit Log rfs = true) →
  unknown_sort_field unified_columns sort = None →
  ("cloudify_log" ∈ types →
   unknown_sort_field (labelled_names events_columns) sort = None) →
  0 <= pg_size p <= max_bigint → 0 <= pg_offset p <= max_bigint →
  ∃ q cq rows events,
    _build_count_query (FiltersDict d) rfs = Ok cq ∧
    _build_select_query (FiltersDict d) p sort rfs = Ok q ∧
    execute s (bound_params p) q = Some rows ∧
    Forall2 (fun r h => _map_event_to_es _include (zip unified_columns r) = Ok h)
            rows events ∧
    run_queries s (FiltersDict d) p sort rfs _include =
      ([CountStatement cq; SelectStatement q],
       Returned (mkResponse events (VInt (expected_total s d types rfs)))) ∧
    (∀ r, r ∈ rows →
          selected_event s d rfs r ∨
          ("cloudify_log" ∈ types ∧ selected_log s d rfs r)) ∧
    (pg_offset p = 0 → expected_total s d types rfs <= pg_size p →
     ∀ r, selected_event s d rfs r ∨
          ("cloudify_log" ∈ types ∧ selected_log s d rfs r) → r ∈ rows) ∧
    Z.of_nat (length rows) <=
      Z.min (pg_size p) (Z.max 0 (expected_total s d types rfs - pg_offset p)) ∧
    ("cloudify_log" ∉ types →
     Z.of_nat (length rows) =
       Z.min (pg_size p) (Z.max 0 (expected_total s d types rfs - pg_offset p))) ∧
    ("cloudify_log" ∈ types → NoDup rows) ∧
    ((∀ r, ¬ (selected_event s d rfs r ∨
              ("cloudify_log" ∈ types ∧ selected_log s d rfs r))) →
     expected_total s d types rfs = 0).
Proof.
  intros Hd Hev Hfit1 Hfit2 Hsort Hlabels Hsize Hoff.
  pose proof (range_filters_fit_unrecognized _ _ Hfit1) as Hrf1.
  assert (Hrf2 : "cloudify_log" ∈ types → unrecognized Log rfs = None).
  { intros Hlog'. by apply range_filters_fit_unrecognized, Hfit2. }
  destruct (run_queries_rows s d types p sort rfs _include)
    as (q & cq & ev & lg & keys & events & Hsel1 & Hsel2 & Hc1 & Hc2 & _ & H);
    [done..|].
  cbv zeta in H. destruct H as (Hq & Hcq & Hrun & Hmap & Hall).
  pose proof (fun r => selection_base_elem s d types rfs ev lg r Hsel1 Hsel2)
    as Hbase.
  set (base := if decide ("cloudify_log" ∈ types)
               then remove_dups (sort_rows [] ev ++ sort_rows [] lg)
               else ev) in *.
  set (rows := take (Z.to_nat (pg_size p))
                 (drop (Z.to_nat (pg_offset p)) (sort_rows keys base))) in *.
  assert (Hlen : Z.of_nat (length base) <= expected_total s d types rfs ∧
                 ("cloudify_log" ∉ types →
                  Z.of_nat (length base) = expected_total s d types rfs)).
  { unfold expected_total. subst base. rewrite <- Hc1, <- Hc2.
    destruct (decide _) as [Hlog|Hlog]; [|lia].
    split; [|done].
    pose proof (remove_dups_length_le (sort_rows [] ev ++ sort_rows [] lg)) as H.
    rewrite length_app, !sort_rows_length in H. lia. }
  assert (Hrows : length rows =
                  Nat.min (Z.to_nat (pg_size p))
                          (length base - Z.to_nat (pg_offset p))).
  { subst rows. by rewrite length_take, length_drop, sort_rows_length. }
  exists q, cq, rows, events. do 3 (split; [done|]).
  split.
  { apply map_events_Forall2 in Hmap. by apply Forall2_fmap_l in Hmap. }
  split; [done|]. split.
  { intros r Hr. apply Hbase. subst rows.
    pose proof (elem_of_sublist _ _ _ Hr (sublist_take _ _)) as Hr1.
    pose proof (elem_of_sublist _ _ _ Hr1 (sublist_drop _ _)) as Hr2.
    unfold sort_rows in Hr2. by rewrite merge_sort_Permutation in Hr2. }
  split.
  { intros Hzero Hfit r Hr. apply Hbase in Hr. subst rows.
    rewrite Hzero. change (Z.to_nat 0) with 0%nat. rewrite drop_0.
    rewrite take_ge by (rewrite sort_rows_length; lia).
    unfold sort_rows. by rewrite merge_sort_Permutation. }
  split; [lia|]. split; [intros Hlog; specialize (proj2 Hlen Hlog); lia|].
  split.
  { intros Hlog. subst rows.
    eapply sublist_NoDup; [|apply sublist_take].
    eapply sublist_NoDup; [|apply sublist_drop].
    unfold sort_rows. rewrite merge_sort_Permutation.
    subst base. rewrite decide_True by done. apply NoDup_remove_dups. }
  intros Hnone. unfold expected_total. rewrite <- Hc1, <- Hc2.
  assert (ev = []) as ->.
  { apply elem_of_nil_inv. intros r Hr. apply (Hnone r). left.
    by apply (select_events_elem _ _ _ _ _ Hsel1). }
  destruct (decide _) as [Hlog|Hlog]; [|done].
  assert (lg = []) as ->; [|done].
  apply elem_of_nil_inv. intros r Hr. apply (Hnone r). right.
  split; [done|]. by apply (select_logs_elem _ _ _ _ _ Hsel2).
Qed.

(** ** What a request returns *)

Lemma event_row_hit (e : EventRow) (dp : DeploymentRow)
    (h : gmap string pyval) :
  _map_event_to_es None (zip unified_columns (event_row e dp)) = Ok h →
  is_event_hit h.
Proof.
  change (zip unified_columns (event_row e dp))
    with (unified (ev_timestamp e) (VStr (dp_id dp)) (ev_message e)
            (ev_message_code e) (ev_event_type e) (ev_operation e)
            (ev_node_id e) VNone VNone (VStr "cloudify_event")).
  rewrite map_event_row by reflexivity. intros [= <-].
  unfold is_event_hit. rewrite !lookup_fmap.
  do 3 (split; [reflexivity|]). eexists. split; reflexivity.
Qed.

Lemma log_row_hit (l : LogRow) (dp : DeploymentRow) (h : gmap string pyval) :
  _map_event_to_es None (zip unified_columns (log_row l dp)) = Ok h →
  is_log_hit h.
Proof.
  change (zip unified_columns (log_row l dp))
    with (unified (lg_timestamp l) (VStr (dp_id dp)) (lg_message l)
            VNone VNone (lg_operation l) (lg_node_id l) (lg_logger l)
            (lg_level l) (VStr "cloudify_log")).
  rewrite map_log_row by reflexivity. intros [= <-].
  unfold is_log_hit. rewrite !lookup_fmap.
  do 2 (split; [reflexivity|]). split; by eexists.
Qed.

Lemma list_compare_le_trans (l1 l2 l3 : list Z) :
  list_compare l1 l2 ≠ Gt → list_compare l2 l3 ≠ Gt →
  list_compare l1 l3 ≠ Gt.
Proof.
  revert l2 l3. induction l1 as [|x l1 IH]; intros [|y l2] [|z l3];
    simpl; try done.
  destruct (Z.compare_spec x y), (Z.compare_spec y z), (Z.compare_spec x z);
    try done; try lia. apply IH.
Qed.

Lemma string_compare_le_trans (s1 s2 s3 : string) :
  String.compare s1 s2 ≠ Gt → String.compare s2 s3 ≠ Gt →
  String.compare s1 s3 ≠ Gt.
Proof.
  assert (Hle : ∀ a b, String.compare a b ≠ Gt ↔ String.le a b).
  { intros a b. unfold String.le, String.leb.
    by destruct (String.compare a b). }
  rewrite !Hle. apply transitivity.
Qed.

(** A value between two bounds: the lower bound is not above the upper
    one. *)
Lemma sql_interval (v b1 b2 : value) :
  sql_ge v b1 → sql_le v b2 → value_compare b1 b2 ≠ Gt.
Proof.
  unfold sql_ge, sql_le. intros [Hc1 H1]%andb_True [Hc2 H2]%andb_True.
  apply bool_decide_unpack in H1, H2.
  rewrite (value_compare_antisym b1 v) in H1.
  assert (H1' : value_compare b1 v ≠ Gt).
  { intros E. rewrite E in H1. by apply H1. }
  destruct v as [|x|x|x], b1 as [|y|y|y], b2 as [|z|z|z]; try done;
    unfold value_compare in *.
  - destruct (Z.compare_spec y x), (Z.compare_spec x z),
      (Z.compare_spec y z); try done; lia.
  - by eapply string_compare_le_trans.
  - by eapply list_compare_le_trans.
Qed.

Lemma in_range_inverted (attrs : list (string * value))
    (rfs : list (string * gmap string value)) (f : string)
    (rf : gmap string value) (b1 b2 : value) :
  (f, rf) ∈ rfs → rf !! "from" = Some b1 → rf !! "to" = Some b2 →
  value_compare b1 b2 = Gt → ¬ in_range attrs rfs.
Proof.
  intros Hin Hfrom Hto Hgt Hrange.
  destruct (Hrange f rf Hin) as [Hge Hle].
  destruct (Hge b1 Hfrom) as (v & Hv & H1).
  destruct (Hle b2 Hto) as (v' & Hv' & H2).
  rewrite Hv in Hv'. injection Hv' as <-.
  by apply (sql_interval v b1 b2).
Qed.

(** The selection query of filters that pass validation. *)
Lemma build_select_query_run (d : gmap string (list string))
    (types : list string) (p : pagination) (sort : list (string * string))
    (rfs : list (string * gmap string value)) :
  d !! "type" = Some types → "cloudify_event" ∈ types →
  unrecognized Event rfs = None →
  ("cloudify_log" ∈ types → unrecognized Log rfs = None) →
  _build_select_query (FiltersDict d) p sort rfs =
  match unknown_sort_field unified_columns sort with
  | Some f => Raise (BadParametersError ("Unknown field to sort by: " +:+ f))
  | None =>
      Ok (select_plan
            (if decide ("cloudify_log" ∈ types)
             then Query_union (source_query events_columns Event d rfs)
                              (source_query logs_columns Log d rfs)
             else source_query events_columns Event d rfs)
            sort)
  end.
Proof.
  intros Hd Hev Hrf1 Hrf2. unfold _build_select_query. rewrite Hd.
  rewrite (bool_decide_true _ Hev). cbn [negb].
  rewrite source_query_eq by done. cbn [bind].
  destruct (decide ("cloudify_log" ∈ types)) as [Hlog|Hlog].
  - rewrite (bool_decide_true _ Hlog), source_query_eq by auto. cbn [bind].
    rewrite apply_sort_run.
    change (column_names (Query_union _ _)) with unified_columns.
    by destruct (unknown_sort_field unified_columns sort).
  - rewrite (bool_decide_false _ Hlog). cbn [bind]. rewrite apply_sort_run.
    change (column_names (source_query events_columns Event d rfs))
      with unified_columns.
    by destruct (unknown_sort_field unified_columns sort).
Qed.

(** When no row of the store passes the filters, a valid request returns
    no hit and a total of zero. *)
Lemma run_queries_nothing_selected (s : store)
    (d : gmap string (list string)) (types : list string) (p : pagination)
    (sort : list (string * string))
    (rfs : list (string * gmap string value))
    (_include : option (list string)) :
  d !! "type" = Some types → "cloudify_event" ∈ types →
  range_filters_fit Event rfs = true →
  ("cloudify_log" ∈ types → range_filters_fit Log rfs = true) →
  unknown_sort_field unified_columns sort = None →
  ("cloudify_log" ∈ types →
   unknown_sort_field (labelled_names events_columns) sort = None) →
  0 <= pg_size p <= max_bigint → 0 <= pg_offset p <= max_bigint →
  (∀ r, ¬ selected_event s d rfs r) → (∀ r, ¬ selected_log s d rfs r) →
  snd (run_queries s (FiltersDict d) p sort rfs _include) =
  Returned (mkResponse [] (VInt 0)).
Proof.
  intros Hd Hev Hfit1 Hfit2 Hsort Hlabels Hsize Hoff Hno1 Hno2.
  pose proof (range_filters_fit_unrecognized _ _ Hfit1) as Hrf1.
  assert (Hrf2 : "cloudify_log" ∈ types → unrecognized Log rfs = None).
  { intros Hlog'. by apply range_filters_fit_unrecognized, Hfit2. }
  destruct (run_queries_selection s d types p sort rfs _include)
    as (q & cq & rows & events & _ & _ & _ & Hmap & Hrun & Hsound & _ & _ & _
        & _ & Hzero); [done..|].
  assert (Hnone : ∀ r, ¬ (selected_event s d rfs r ∨
                          "cloudify_log" ∈ types ∧ selected_log s d rfs r)).
  { intros r [H|[_ H]]; [by apply (Hno1 r)|by apply (Hno2 r)]. }
  assert (rows = []) as ->.
  { apply elem_of_nil_inv. intros r Hr. by apply (Hnone r), Hsound. }
  apply Forall2_nil_inv_l in Hmap as ->.
  by rewrite Hrun, (Hzero Hnone).
Qed.

(** C8.  For given filters, range filters and sort, the count does not
    depend on the pagination: it is the number of matching rows, whatever
    parameters are bound.  The selection query is the same for every
    pagination, with LIMIT and OFFSET as the bound parameters ['limit'] and
    ['offset']; run with [limit = size] and [offset = offset] it skips the
    first [offset] rows of the sorted selection and returns the next [size]
    of them at most; the hits are made from these rows.  The sorted
    selection is the same for every pagination: it holds the rows that the
    filters let through, as many as the total says when only events are
    asked for.  The request is one that the store accepts:
    range bounds of the kind of their column, sort fields among the
    labelled columns when logs are asked for, sizes and offsets within the
    64-bit integers. *)
Theorem pagination_only_windows (s : store) (d : gmap string (list string))
    (types : list string) (p1 p2 : pagination)
    (sort : list (string * string))
    (rfs : list (string * gmap string value))
    (_include : option (list string)) :
  d !! "type" = Some types → "cloudify_event" ∈ types →
  range_filters_fit Event rfs = true →
  ("cloudify_log" ∈ types → range_filters_fit Log rfs = true) →
  unknown_sort_field unified_columns sort = None →
  ("cloudify_log" ∈ types →
   unknown_sort_field (labelled_names events_columns) sort = None) →
  0 <= pg_size p1 <= max_bigint → 0 <= pg_offset p1 <= max_bigint →
  0 <= pg_size p2 <= max_bigint → 0 <= pg_offset p2 <= max_bigint →
  ∃ q cq sorted r1 r2,
    _build_select_query (FiltersDict d) p1 sort rfs = Ok q ∧
    _build_select_query (FiltersDict d) p2 sort rfs = Ok q ∧
    limit_clause q = Some (BindParam "limit") ∧
    offset_clause q = Some (BindParam "offset") ∧
    _build_count_query (FiltersDict d) rfs = Ok cq ∧
    (∀ params,
       Query_scalar s params cq = Some (VInt (expected_total s d types rfs))) ∧
    (∀ r, r ∈ sorted ↔
          selected_event s d rfs r ∨
          ("cloudify_log" ∈ types ∧ selected_log s d rfs r)) ∧
    Z.of_nat (length sorted) <= expected_total s d types rfs ∧
    ("cloudify_log" ∉ types →
     Z.of_nat (length sorted) = expected_total s d types rfs) ∧
    execute s (bound_params p1) q =
      Some (take (Z.to_nat (pg_size p1))
              (drop (Z.to_nat (pg_offset p1)) sorted)) ∧
    execute s (bound_params p2) q =
      Some (take (Z.to_nat (pg_size p2))
              (drop (Z.to_nat (pg_offset p2)) sorted)) ∧
    snd (run_queries s (FiltersDict d) p1 sort rfs _include) = Returned r1 ∧
    snd (run_queries s (FiltersDict d) p2 sort rfs _include) = Returned r2 ∧
    Forall2 (fun r h =>
               _map_event_to_es _include (zip unified_columns r) = Ok h)
            (take (Z.to_nat (pg_size p1))
               (drop (Z.to_nat (pg_offset p1)) sorted))
            (hits r1) ∧
    Forall2 (fun r h =>
               _map_event_to_es _include (zip unified_columns r) = Ok h)
            (take (Z.to_nat (pg_size p2))
               (drop (Z.to_nat (pg_offset p2)) sorted))
            (hits r2) ∧
    total r1 = VInt (expected_total s d types rfs) ∧
    total r2 = total r1 ∧
    Z.of_nat (length (hits r1)) <= pg_size p1 ∧
    Z.of_nat (length (hits r2)) <= pg_size p2.
Proof.
  intros Hd Hev Hfit1 Hfit2 Hsort Hlabels Hs1 Ho1 Hs2 Ho2.
  pose proof (range_filters_fit_unrecognized _ _ Hfit1) as Hrf1.
  assert (Hrf2 : "cloudify_log" ∈ types → unrecognized Log rfs = None).
  { intros Hlog. by apply range_filters_fit_unrecognized, Hfit2. }
  destruct (run_queries_rows s d types p1 sort rfs _include)
    as (q & cq & ev & lg & keys & events1 & Hsel1 & Hsel2 & Hc1 & Hc2 & Hkeys
        & H1); [done..|].
  destruct (run_queries_rows s d types p2 sort rfs _include)
    as (q2 & cq2 & ev2 & lg2 & keys2 & events2 & Hsel1' & Hsel2' & _ & _
        & Hkeys' & H2); [done..|].
  cbv zeta in H1, H2.
  destruct H1 as (Hq & Hcq & Hrun1 & Hmap1 & Hall1).
  destruct H2 as (Hq2 & _ & Hrun2 & Hmap2 & Hall2).
  assert (ev2 = ev) as -> by congruence.
  assert (lg2 = lg) as -> by congruence.
  assert (keys2 = keys) as -> by congruence.
  assert (q2 = q) as ->.
  { change (_build_select_query (FiltersDict d) p2 sort rfs)
      with (_build_select_query (FiltersDict d) p1 sort rfs) in Hq2.
    congruence. }
  destruct (count_query_scalar s d types rfs) as (cq' & Hcq' & Hscalar);
    [done..|].
  assert (cq' = cq) as -> by congruence.
  apply map_events_Forall2, Forall2_fmap_l in Hmap1, Hmap2.
  pose proof (Forall2_length _ _ _ Hmap1) as Hlen1.
  pose proof (Forall2_length _ _ _ Hmap2) as Hlen2.
  rewrite length_take in Hlen1, Hlen2.
  pose proof (build_select_query_run d types p1 sort rfs Hd Hev Hrf1 Hrf2)
    as Hform. rewrite Hsort, Hq in Hform. injection Hform as ->.
  eexists _, cq,
    (sort_rows keys
       (if decide ("cloudify_log" ∈ types)
        then remove_dups (sort_rows [] ev ++ sort_rows [] lg) else ev)),
    (mkResponse events1 (VInt (expected_total s d types rfs))),
    (mkResponse events2 (VInt (expected_total s d types rfs))).
  split; [done|]. split; [done|]. split; [done|]. split; [done|].
  split; [done|]. split; [done|].
  split.
  { intros r. unfold sort_rows. rewrite merge_sort_Permutation.
    by apply selection_base_elem. }
  split.
  { rewrite sort_rows_length. unfold expected_total. rewrite <- Hc1, <- Hc2.
    destruct (decide _) as [Hlog|Hlog]; [|lia].
    pose proof (remove_dups_length_le (sort_rows [] ev ++ sort_rows [] lg))
      as Hdup.
    rewrite length_app, !sort_rows_length in Hdup. lia. }
  split.
  { intros Hlog. rewrite sort_rows_length. unfold expected_total.
    rewrite <- Hc1, !decide_False by done. lia. }
  split; [exact Hrun1|]. split; [exact Hrun2|].
  split; [by rewrite Hall1|]. split; [by rewrite Hall2|].
  split; [exact Hmap1|]. split; [exact Hmap2|].
  cbn [hits total]. split; [done|]. split; [done|]. split; lia.
Qed.

Lemma pagination_only_windows_witness :
  ∃ r1 r2,
    snd (run_queries sample_store (FiltersDict both_types_filters)
                     (mkPagination 1 0) sample_sort [] None) = Returned r1 ∧
    snd (run_queries sample_store (FiltersDict both_types_filters)
                     (mkPagination 10 1) sample_sort [] None) = Returned r2 ∧
    total r2 = total r1 ∧
    Z.of_nat (length (hits r1)) <= 1.
Proof.
  destruct (pagination_only_windows sample_store both_types_filters
              ["cloudify_event"; "cloudify_log"]
              (mkPagination 1 0) (mkPagination 10 1) sample_sort [] None)
    as (q & cq & sorted & r1 & r2 & _ & _ & _ & _ & _ & _ & _ & _ & _ & _ & _
        & H1 & H2 & _ & _ & _ & Ht & Hl & _).
  - reflexivity.
  - by_decide.
  - reflexivity.
  - intros _. reflexivity.
  - reflexivity.
  - intros _. reflexivity.
  - unfold max_bigint. simpl. lia.
  - unfold max_bigint. simpl. lia.
  - unfold max_bigint. simpl. lia.
  - unfold max_bigint. simpl. lia.
  - by exists r1, r2.
Defined.

(** X4.  The rows that a valid request selects are exactly what the
    filters describe, for a request that the store accepts (range bounds
    of the kind of their column, sort fields among the labelled columns
    when logs are asked for, a size and an offset within the 64-bit
    integers).  Every selected row is made of an event of the
    store, the execution it points to and the deployment of that
    execution, where the execution id and the deployment id are among the
    filter values (for the filters that are present) and every range
    filter holds; or, when logs are asked for, of such a log.  With no
    offset and a size that is not below the total, every such row is
    selected. *)
Theorem selection_sound_and_complete (s : store)
    (d : gmap string (list string)) (types : list string) (p : pagination)
    (sort : list (string * string))
    (rfs : list (string * gmap string value)) :
  d !! "type" = Some types → "cloudify_event" ∈ types →
  range_filters_fit Event rfs = true →
  ("cloudify_log" ∈ types → range_filters_fit Log rfs = true) →
  unknown_sort_field unified_columns sort = None →
  ("cloudify_log" ∈ types →
   unknown_sort_field (labelled_names events_columns) sort = None) →
  0 <= pg_size p <= max_bigint → 0 <= pg_offset p <= max_bigint →
  ∃ q rows,
    _build_select_query (FiltersDict d) p sort rfs = Ok q ∧
    execute s (bound_params p) q = Some rows ∧
    (∀ r, r ∈ rows →
          selected_event s d rfs r ∨
          ("cloudify_log" ∈ types ∧ selected_log s d rfs r)) ∧
    (pg_offset p = 0 → expected_total s d types rfs <= pg_size p →
     ∀ r, selected_event s d rfs r ∨
          ("cloudify_log" ∈ types ∧ selected_log s d rfs r) → r ∈ rows).
Proof.
  intros Hd Hev Hfit1 Hfit2 Hsort Hlabels Hsize Hoff.
  pose proof (range_filters_fit_unrecognized _ _ Hfit1) as Hrf1.
  assert (Hrf2 : "cloudify_log" ∈ types → unrecognized Log rfs = None).
  { intros Hlog'. by apply range_filters_fit_unrecognized, Hfit2. }
  destruct (run_queries_selection s d types p sort rfs None)
    as (q & cq & rows & events & _ & Hq & Hrun & _ & _ & Hsound & Hcomplete & _);
    [done..|].
  by exists q, rows.
Qed.

Lemma selection_sound_and_complete_witness :
  ∃ q rows,
    _build_select_query (FiltersDict both_types_filters) (mkPagination 10 0)
                        sample_sort sample_range_filters = Ok q ∧
    execute sample_store (bound_params (mkPagination 10 0)) q = Some rows ∧
    (∀ r, r ∈ rows →
          selected_event sample_store both_types_filters
                         sample_range_filters r ∨
          ("cloudify_log" ∈ ["cloudify_event"; "cloudify_log"] ∧
           selected_log sample_store both_types_filters
                        sample_range_filters r)) ∧
    (pg_offset (mkPagination 10 0) = 0 →
     expected_total sample_store both_types_filters
                    ["cloudify_event"; "cloudify_log"] sample_range_filters
       <= pg_size (mkPagination 10 0) →
     ∀ r, selected_event sample_store both_types_filters
                         sample_range_filters r ∨
          ("cloudify_log" ∈ ["cloudify_event"; "cloudify_log"] ∧
           selected_log sample_store both_types_filters
                        sample_range_filters r) → r ∈ rows).
Proof.
  apply (selection_sound_and_complete sample_store both_types_filters
           ["cloudify_event"; "cloudify_log"] (mkPagination 10 0)
           sample_sort sample_range_filters).
  - reflexivity.
  - by_decide.
  - reflexivity.
  - intros _. reflexivity.
  - reflexivity.
  - intros _. reflexivity.
  - unfold max_bigint. simpl. lia.
  - unfold max_bigint. simpl. lia.
Defined.

(** X5.  The number of hits of a valid request that the store accepts
    (range bounds of the kind of their column, sort fields among the
    labelled columns when logs are asked for, a size and an offset within
    the 64-bit integers) follows from the total and the window: it is at most [min(size, max(0, total - offset))], and
    exactly that when only events are asked for.  In particular a request
    for events with no offset and a size not below the total returns as
    many hits as the total says. *)
Theorem hits_follow_total_and_window (s : store)
    (d : gmap string (list string)) (types : list string) (p : pagination)
    (sort : list (string * string))
    (rfs : list (string * gmap string value))
    (_include : option (list string)) :
  d !! "type" = Some types → "cloudify_event" ∈ types →
  range_filters_fit Event rfs = true →
  ("cloudify_log" ∈ types → range_filters_fit Log rfs = true) →
  unknown_sort_field unified_columns sort = None →
  ("cloudify_log" ∈ types →
   unknown_sort_field (labelled_names events_columns) sort = None) →
  0 <= pg_size p <= max_bigint → 0 <= pg_offset p <= max_bigint →
  ∃ trace hs n,
    run_queries s (FiltersDict d) p sort rfs _include =
      (trace, Returned (mkResponse hs (VInt n))) ∧
    n = expected_total s d types rfs ∧
    Z.of_nat (length hs) <= Z.min (pg_size p) (Z.max 0 (n - pg_offset p)) ∧
    ("cloudify_log" ∉ types →
     Z.of_nat (length hs) = Z.min (pg_size p) (Z.max 0 (n - pg_offset p))).
Proof.
  intros Hd Hev Hfit1 Hfit2 Hsort Hlabels Hsize Hoff.
  pose proof (range_filters_fit_unrecognized _ _ Hfit1) as Hrf1.
  assert (Hrf2 : "cloudify_log" ∈ types → unrecognized Log rfs = None).
  { intros Hlog'. by apply range_filters_fit_unrecognized, Hfit2. }
  destruct (run_queries_selection s d types p sort rfs _include)
    as (q & cq & rows & events & _ & _ & _ & Hmap & Hrun & _ & _ & Hle & Heq
        & _); [done..|].
  apply Forall2_length in Hmap. rewrite Hmap in Hle, Heq.
  by eexists _, events, _.
Qed.

Lemma hits_follow_total_and_window_witness :
  ∃ trace hs n,
    run_queries sample_store (FiltersDict events_only_filters)
                (mkPagination 1 1) sample_sort [] None =
      (trace, Returned (mkResponse hs (VInt n))) ∧
    n = expected_total sample_store events_only_filters ["cloudify_event"] [] ∧
    Z.of_nat (length hs)
      <= Z.min (pg_size (mkPagination 1 1))
               (Z.max 0 (n - pg_offset (mkPagination 1 1))) ∧
    ("cloudify_log" ∉ ["cloudify_event"] →
     Z.of_nat (length hs)
       = Z.min (pg_size (mkPagination 1 1))
               (Z.max 0 (n - pg_offset (mkPagination 1 1)))).
Proof.
  apply (hits_follow_total_and_window sample_store events_only_filters
           ["cloudify_event"] (mkPagination 1 1) sample_sort [] None).
  - reflexivity.
  - by_decide.
  - reflexivity.
  - intros _. reflexivity.
  - reflexivity.
  - intros _. reflexivity.
  - unfold max_bigint. simpl. lia.
  - unfold max_bigint. simpl. lia.
Defined.

(** X6.  A request with known sort fields (among the labelled columns
    when it has a [should] clause), an offset and a size that are not
    negative and within the 64-bit integers runs the count, then the
    selection, and returns; it has at
    most [size] hits, 10000 when no size is given.  Every hit has the shape
    of an event (tagged [cloudify_event], no ['logger'] nor ['level'] key,
    the message with [arguments] set to [None]); with a [should] clause a
    hit may also have the shape of a log (tagged [cloudify_log], no
    ['event_type'] key, ['logger'] and ['level'] kept). *)
Theorem query_events_hit_shapes (s : store) (rq : request) :
  unknown_sort_field unified_columns (rq_sort rq) = None →
  (rq_should rq = true →
   unknown_sort_field (labelled_names events_columns) (rq_sort rq) = None) →
  0 <= rq_from rq <= max_bigint →
  0 <= default DEFAULT_SEARCH_SIZE (rq_size rq) <= max_bigint →
  ∃ cq q hs n,
    _query_events s rq =
      ([CountStatement cq; SelectStatement q],
       Returned (mkResponse hs (VInt n))) ∧
    Z.of_nat (length hs) <= default DEFAULT_SEARCH_SIZE (rq_size rq) ∧
    Forall (fun h => is_event_hit h ∨ (rq_should rq = true ∧ is_log_hit h)) hs.
Proof.
  intros Hsort Hlabels Hfrom Hsize. unfold _query_events.
  set (types := if rq_should rq then ["cloudify_event"; "cloudify_log"]
                else ["cloudify_event"]).
  set (d := <["execution_id" := [rq_execution_id rq]]> _).
  assert (Hd : d !! "type" = Some types).
  { subst d types. rewrite lookup_insert_ne by done.
    destruct (rq_should rq); by rewrite lookup_singleton_eq. }
  assert (Hev : "cloudify_event" ∈ types).
  { subst types. destruct (rq_should rq); by left. }
  assert (Hshould : "cloudify_log" ∈ types → rq_should rq = true).
  { subst types. destruct (rq_should rq); [done|].
    by intros ?%list_elem_of_singleton. }
  destruct (run_queries_selection s d types
              (mkPagination (default DEFAULT_SEARCH_SIZE (rq_size rq))
                            (rq_from rq))
              (rq_sort rq) [] None)
    as (q & cq & rows & events & _ & _ & _ & Hmap & Hrun & Hsound & _ & Hle & _);
    [done|done|done|done|done|by intros ?%Hshould%Hlabels|done|done|].
  exists cq, q, events, (expected_total s d types []).
  split; [done|]. cbn [pg_size pg_offset] in Hle.
  split; [rewrite <- (Forall2_length _ _ _ Hmap); lia|].
  apply (Forall2_Forall_r _ _ _ _ Hmap), Forall_forall.
  intros r Hr h Hh.
  destruct (Hsound r Hr) as [(e & x & dp & _ & _ & _ & ->)
                            |[Hlog (l & x & dp & _ & _ & _ & ->)]].
  - left. by apply (event_row_hit e dp).
  - right. split; [by apply Hshould|by apply (log_row_hit l dp)].
Qed.

Lemma query_events_hit_shapes_witness :
  ∃ cq q hs n,
    _query_events sample_store both_types_request =
      ([CountStatement cq; SelectStatement q],
       Returned (mkResponse hs (VInt n))) ∧
    Z.of_nat (length hs)
      <= default DEFAULT_SEARCH_SIZE (rq_size both_types_request) ∧
    Forall (fun h => is_event_hit h ∨
                     (rq_should both_types_request = true ∧ is_log_hit h)) hs.
Proof.
  apply (query_events_hit_shapes sample_store both_types_request).
  - reflexivity.
  - intros _. reflexivity.
  - unfold max_bigint. simpl. lia.
  - unfold max_bigint, DEFAULT_SEARCH_SIZE. simpl. lia.
Defined.



(** X8.  An empty list of execution ids, or of deployment ids, is a filter
    that nothing passes: a valid request that the store accepts (range
    bounds of the kind of their column, sort fields among the labelled
    columns when logs are asked for, a size and an offset within the
    64-bit integers) returns no hit and a total of zero, whatever the
    store holds. *)
Theorem empty_id_list_selects_nothing (s : store)
    (d : gmap string (list string)) (types : list string) (p : pagination)
    (sort : list (string * string))
    (rfs : list (string * gmap string value))
    (_include : option (list string)) :
  d !! "type" = Some types → "cloudify_event" ∈ types →
  range_filters_fit Event rfs = true →
  ("cloudify_log" ∈ types → range_filters_fit Log rfs = true) →
  unknown_sort_field unified_columns sort = None →
  ("cloudify_log" ∈ types →
   unknown_sort_field (labelled_names events_columns) sort = None) →
  0 <= pg_size p <= max_bigint → 0 <= pg_offset p <= max_bigint →
  d !! "execution_id" = Some [] ∨ d !! "deployment_id" = Some [] →
  snd (run_queries s (FiltersDict d) p sort rfs _include) =
  Returned (mkResponse [] (VInt 0)).
Proof.
  intros Hd Hev Hfit1 Hfit2 Hsort Hlabels Hsize Hoff Hempty.
  pose proof (range_filters_fit_unrecognized _ _ Hfit1) as Hrf1.
  assert (Hrf2 : "cloudify_log" ∈ types → unrecognized Log rfs = None).
  { intros Hlog'. by apply range_filters_fit_unrecognized, Hfit2. }
  assert (Hown : ∀ fk x dp, ¬ owned_by s d fk x dp).
  { intros fk x dp (_ & _ & _ & _ & Hxs & Hys).
    destruct Hempty as [H|H].
    - by apply (elem_of_nil (ex_id x)), Hxs.
    - by apply (elem_of_nil (dp_id dp)), Hys. }
  apply (run_queries_nothing_selected s d types); try done.
  - intros r (e & x & dp & _ & H & _). by apply Hown in H.
  - intros r (l & x & dp & _ & H & _). by apply Hown in H.
Qed.

Lemma empty_id_list_selects_nothing_witness :
  snd (run_queries sample_store (FiltersDict empty_id_filters)
                   (mkPagination 10 0) sample_sort [] None) =
  Returned (mkResponse [] (VInt 0)).
Proof.
  apply (empty_id_list_selects_nothing sample_store empty_id_filters
           ["cloudify_event"; "cloudify_log"] (mkPagination 10 0)
           sample_sort [] None).
  - reflexivity.
  - by_decide.
  - reflexivity.
  - intros _. reflexivity.
  - reflexivity.
  - intros _. reflexivity.
  - unfold max_bigint. simpl. lia.
  - unfold max_bigint. simpl. lia.
  - left. reflexivity.
Defined.

(** X9.  A range filter whose ['from'] bound is above its ['to'] bound,
    both of the kind of the column, is accepted and selects nothing: a
    valid request that the store accepts (sort fields among the labelled
    columns when logs are asked for, a size and an offset within the 64-bit
    integers) returns no hit and a total of zero. *)
Theorem inverted_range_selects_nothing (s : store)
    (d : gmap string (list string)) (types : list string) (p : pagination)
    (sort : list (string * string))
    (rfs : list (string * gmap string value))
    (_include : option (list string))
    (f : string) (rf : gmap string value) (b1 b2 : value) :
  d !! "type" = Some types → "cloudify_event" ∈ types →
  range_filters_fit Event rfs = true →
  ("cloudify_log" ∈ types → range_filters_fit Log rfs = true) →
  unknown_sort_field unified_columns sort = None →
  ("cloudify_log" ∈ types →
   unknown_sort_field (labelled_names events_columns) sort = None) →
  0 <= pg_size p <= max_bigint → 0 <= pg_offset p <= max_bigint →
  (f, rf) ∈ rfs → rf !! "from" = Some b1 → rf !! "to" = Some b2 →
  value_compare b1 b2 = Gt →
  snd (run_queries s (FiltersDict d) p sort rfs _include) =
  Returned (mkResponse [] (VInt 0)).
Proof.
  intros Hd Hev Hfit1 Hfit2 Hsort Hlabels Hsize Hoff Hin Hfrom Hto Hgt.
  pose proof (range_filters_fit_unrecognized _ _ Hfit1) as Hrf1.
  assert (Hrf2 : "cloudify_log" ∈ types → unrecognized Log rfs = None).
  { intros Hlog'. by apply range_filters_fit_unrecognized, Hfit2. }
  apply (run_queries_nothing_selected s d types); try done.
  - intros r (e & x & dp & _ & _ & H & _).
    by apply (in_range_inverted _ rfs f rf b1 b2) in H.
  - intros r (l & x & dp & _ & _ & H & _).
    by apply (in_range_inverted _ rfs f rf b1 b2) in H.
Qed.

Lemma inverted_range_selects_nothing_witness :
  snd (run_queries sample_store (FiltersDict both_types_filters)
                   (mkPagination 10 0) sample_sort inverted_range_filters
                   None) =
  Returned (mkResponse [] (VInt 0)).
Proof.
  apply (inverted_range_selects_nothing sample_store both_types_filters
           ["cloudify_event"; "cloudify_log"] (mkPagination 10 0)
           sample_sort inverted_range_filters None "@timestamp"
           (<["to" := VDatetime (mkDatetime 2024 1 1 0 0 0 0)]>
              {["from" := VDatetime (mkDatetime 2024 1 31 0 0 0 0)]})
           (VDatetime (mkDatetime 2024 1 31 0 0 0 0))
           (VDatetime (mkDatetime 2024 1 1 0 0 0 0))).
  - reflexivity.
  - by_decide.
  - reflexivity.
  - intros _. reflexivity.
  - reflexivity.
  - intros _. reflexivity.
  - unfold max_bigint. simpl. lia.
  - unfold max_bigint. simpl. lia.
  - left.
  - reflexivity.
  - reflexivity.
  - reflexivity.
Defined.

(** ** Validation in the two builders *)


Example count_and_select_reject_bad_range :
  _build_count_query (FiltersDict both_types_filters) bad_range_filters =
    Raise (BadParametersError "Unknown field to filter by range: logger") ∧
  _build_select_query (FiltersDict both_types_filters) (mkPagination 10 0)
                      bad_sort bad_range_filters =
    Raise (BadParametersError "Unknown field to filter by range: logger").
Proof. split; reflexivity. Qed.

(** X11.  The builders read three keys of the filters, ['type'],
    ['execution_id'] and ['deployment_id']: two dictionaries that agree on
    them give the same queries and the same errors, so any other key is
    ignored without an error. *)
Theorem builders_read_three_keys (d d' : gmap string (list string))
    (p : pagination) (sort : list (string * string))
    (rfs : list (string * gmap string value)) :
  d !! "type" = d' !! "type" →
  d !! "execution_id" = d' !! "execution_id" →
  d !! "deployment_id" = d' !! "deployment_id" →
  _build_select_query (FiltersDict d) p sort rfs =
    _build_select_query (FiltersDict d') p sort rfs ∧
  _build_count_query (FiltersDict d) rfs =
    _build_count_query (FiltersDict d') rfs.
Proof.
  intros Hty Hx Hdp. unfold _build_select_query, _build_count_query.
  rewrite !apply_filters_criteria. unfold filter_criteria.
  by rewrite Hty, Hx, Hdp.
Qed.

Lemma builders_read_three_keys_witness :
  _build_select_query (FiltersDict node_id_filters) (mkPagination 10 0)
                      sample_sort sample_range_filters =
    _build_select_query (FiltersDict both_types_filters) (mkPagination 10 0)
                        sample_sort sample_range_filters ∧
  _build_count_query (FiltersDict node_id_filters) sample_range_filters =
    _build_count_query (FiltersDict both_types_filters) sample_range_filters.
Proof.
  apply (builders_read_three_keys node_id_filters both_types_filters
           (mkPagination 10 0) sample_sort sample_range_filters);
    reflexivity.
Defined.

(** X12.  When logs are asked for, a range filter has to name a field of
    both models: a field that events have and logs lack makes both builders
    raise [BadParameters], although the same range filters are accepted
    when only events are asked for. *)
Theorem range_field_checked_on_both_models (d : gmap string (list string))
    (types : list string) (p : pagination) (sort : list (string * string))
    (rfs : list (string * gmap string value)) (f : string) :
  d !! "type" = Some types →
  "cloudify_event" ∈ types → "cloudify_log" ∈ types →
  unrecognized Event rfs = None → unrecognized Log rfs = Some f →
  _build_count_query (FiltersDict d) rfs =
    Raise (BadParametersError ("Unknown field to filter by range: " +:+ f)) ∧
  _build_select_query (FiltersDict d) p sort rfs =
    Raise (BadParametersError ("Unknown field to filter by range: " +:+ f)) ∧
  ∃ cq, _build_count_query
          (FiltersDict (<["type" := ["cloudify_event"]]> d)) rfs = Ok cq.
Proof.
  intros Hd Hev Hlog Hrf1 Hrf2. split; [|split].
  - unfold _build_count_query. rewrite Hd, (bool_decide_true _ Hev).
    cbn [negb]. rewrite !apply_range_filters_run, Hrf1. cbn [bind].
    by rewrite (bool_decide_true _ Hlog), Hrf2.
  - unfold _build_select_query. rewrite Hd, (bool_decide_true _ Hev).
    cbn [negb]. rewrite !apply_range_filters_run, Hrf1. cbn [bind].
    by rewrite (bool_decide_true _ Hlog), Hrf2.
  - eexists.
    apply (build_count_query_events _ ["cloudify_event"]);
      [by rewrite lookup_insert_eq|by left| |done].
    by intros ?%list_elem_of_singleton.
Qed.

Lemma range_field_checked_on_both_models_witness :
  _build_count_query (FiltersDict both_types_filters)
                     event_only_range_filters =
    Raise (BadParametersError
             ("Unknown field to filter by range: " +:+ "event_type")) ∧
  _build_select_query (FiltersDict both_types_filters) (mkPagination 10 0)
                      sample_sort event_only_range_filters =
    Raise (BadParametersError
             ("Unknown field to filter by range: " +:+ "event_type")) ∧
  ∃ cq, _build_count_query
          (FiltersDict (<["type" := ["cloudify_event"]]> both_types_filters))
          event_only_range_filters = Ok cq.
Proof.
  apply (range_field_checked_on_both_models both_types_filters
           ["cloudify_event"; "cloudify_log"] (mkPagination 10 0) sample_sort
           event_only_range_filters "event_type").
  - reflexivity.
  - by_decide.
  - by_decide.
  - reflexivity.
  - reflexivity.
Defined.

(** ** Columns the mapper does not know *)

(** X13.  Whatever the row holds under a label that the mapper does not
    restructure is carried over to the record under the same key, a
    timestamp rendered as text and any other value as it is: this goes for
    ['timestamp'], ['type'] and ['message_code'], and for any column the
    mapper does not know. *)
Theorem map_event_keeps_other_columns (row : sql_row)
    (record : gmap string pyval) (k : string) :
  _map_event_to_es None row = Ok record →
  k ∉ restructured_labels →
  record !! k = stringify_datetime <$> (row_to_dict row !! k).
Proof.
  intros Hrun Hk. unfold restructured_labels in Hk.
  rewrite !not_elem_of_cons in Hk.
  destruct Hk as (? & ? & ? & ? & ? & ? & ? & ? & ? & _).
  revert Hrun. unfold _map_event_to_es. set (m := row_to_dict row). cbv zeta.
  destruct (m !! "timestamp") as [ts|] eqn:Hts; [|by run_mapper_on m].
  destruct (m !! "message") as [msg|] eqn:Hmsg; [|by run_mapper_on m].
  destruct (m !! "deployment_id") as [dep|] eqn:Hdep; [|by run_mapper_on m].
  destruct (m !! "operation") as [op|] eqn:Hop; [|by run_mapper_on m].
  destruct (m !! "node_id") as [node|] eqn:Hnode; [|by run_mapper_on m].
  destruct (m !! "type") as [ty|] eqn:Hty; [|by run_mapper_on m].
  destruct (py_eq_str ty "cloudify_event") eqn:Hev;
    [|destruct (py_eq_str ty "cloudify_log") eqn:Hlog].
  - destruct (m !! "logger") as [lg|] eqn:Hlg;
      [destruct (m !! "level") as [lv|] eqn:Hlv|];
      run_mapper_on m; rewrite Hev; unfold set_message_arguments;
      run_mapper_on m; try done.
    intros [= <-]. rewrite lookup_fmap. by eval_lookups.
  - destruct (m !! "event_type") as [et|] eqn:Het;
      run_mapper_on m; rewrite Hev, Hlog; run_mapper_on m; try done.
    intros [= <-]. rewrite lookup_fmap. by eval_lookups.
  - run_mapper_on m. rewrite Hev, Hlog.
    intros [= <-]. rewrite lookup_fmap. by eval_lookups.
Qed.

Lemma map_event_keeps_other_columns_witness :
  ∃ record,
    _map_event_to_es None row_with_extra_column = Ok record ∧
    record !! "reported_timestamp" = Some (PStr "2024-01-02T03:04:06.500Z").
Proof.
  destruct (_map_event_to_es None row_with_extra_column) as [record|e] eqn:E;
    [|discriminate E].
  exists record. split; [reflexivity|].
  rewrite (map_event_keeps_other_columns row_with_extra_column record
             "reported_timestamp" E); [reflexivity|].
  unfold restructured_labels. by_decide.
Defined.

(** ** Requests for an execution the store does not know *)

(** X14.  Asking for the events of an execution that the store does not
    hold is no error: a request that the store accepts (sort fields among
    the labelled columns when it has a [should] clause, an offset and a
    size within the 64-bit integers) returns no hit and a total of zero. *)
Theorem query_events_unknown_execution (s : store) (rq : request) :
  (∀ x, x ∈ executions s → ex_id x ≠ rq_execution_id rq) →
  unknown_sort_field unified_columns (rq_sort rq) = None →
  (rq_should rq = true →
   unknown_sort_field (labelled_names events_columns) (rq_sort rq) = None) →
  0 <= rq_from rq <= max_bigint →
  0 <= default DEFAULT_SEARCH_SIZE (rq_size rq) <= max_bigint →
  snd (_query_events s rq) = Returned (mkResponse [] (VInt 0)).
Proof.
  intros Hunknown Hsort Hlabels Hfrom Hsize. unfold _query_events.
  set (types := if rq_should rq then ["cloudify_event"; "cloudify_log"]
                else ["cloudify_event"]).
  set (d := <["execution_id" := [rq_execution_id rq]]> _).
  assert (Hd : d !! "type" = Some types).
  { subst d types. rewrite lookup_insert_ne by done.
    destruct (rq_should rq); by rewrite lookup_singleton_eq. }
  assert (Hev : "cloudify_event" ∈ types).
  { subst types. destruct (rq_should rq); by left. }
  assert (Hown : ∀ fk x dp, ¬ owned_by s d fk x dp).
  { intros fk x dp (Hx & _ & _ & _ & Hxs & _).
    apply (Hunknown x Hx), list_elem_of_singleton, Hxs.
    subst d. by rewrite lookup_insert_eq. }
  assert (Hshould : "cloudify_log" ∈ types → rq_should rq = true).
  { subst types. destruct (rq_should rq); [done|].
    by intros ?%list_elem_of_singleton. }
  apply (run_queries_nothing_selected s d types); try done.
  - by intros ?%Hshould%Hlabels.
  - intros r (e & x & dp & _ & H & _). by apply Hown in H.
  - intros r (l & x & dp & _ & H & _). by apply Hown in H.
Qed.

Lemma query_events_unknown_execution_witness :
  snd (_query_events sample_store unknown_execution_request) =
  Returned (mkResponse [] (VInt 0)).
Proof.
  apply (query_events_unknown_execution sample_store
           unknown_execution_request).
  - intros x Hx. unfold sample_store in Hx. simpl in Hx.
    apply elem_of_cons in Hx as [->|Hx]; [discriminate|].
    apply list_elem_of_singleton in Hx as ->. discriminate.
  - reflexivity.
  - intros _. reflexivity.
  - unfold max_bigint. simpl. lia.
  - unfold max_bigint, DEFAULT_SEARCH_SIZE. simpl. lia.
Defined.

(** ** Sorting events and logs by a column without a label *)

Lemma not_orderable_in_union (sort : list (string * string))
    (keys : list (direction * nat)) (f : string) :
  mapM (resolve_key unified_columns) (sort_keys sort) = Some keys →
  unknown_sort_field (labelled_names events_columns) sort = Some f →
  forallb (orderable events_columns true) keys = false.
Proof.
  intros Hkeys (Hf & f' & o & Hin & ->)%unknown_sort_field_Some.
  apply mapM_Some_1, Forall2_fmap_l in Hkeys.
  apply list_elem_of_lookup_1 in Hin as [i Hi].
  destruct (Forall2_lookup_l _ _ _ _ _ Hkeys Hi) as (key & Hkey & Hres).
  apply list_elem_of_lookup_2, list_elem_of_In in Hkey.
  destruct (forallb _ keys) eqn:E; [|done].
  rewrite forallb_forall in E. specialize (E key Hkey).
  unfold resolve_key in Hres. cbn [fst snd] in Hres.
  apply bind_Some in Hres as (n & Hn & [= <-]).
  assert (Hcases : ∀ j, index_of (lstrip "@" f') unified_columns = Some j →
                        lstrip "@" f' ∈ labelled_names events_columns ∨
                        orderable events_columns true
                          (if decide (o = "asc") then Ascending
                           else Descending, j) = false).
  { intros j. rewrite labelled_names_events. unfold unified_columns.
    cbn [index_of].
    repeat match goal with
           | |- context [String.eqb (lstrip "@" f') ?x] =>
               destruct (String.eqb_spec (lstrip "@" f') x) as [->|_];
               [simpl; intros [= <-]; first [by right | left; by_decide]|]
           end.
    by simpl. }
  destruct (Hcases n Hn) as [Hlab|Hno]; [done|congruence].
Qed.

(** X15.  A request for events and logs sorted by a column that has no
    label in the selection ([message], [message_code], [event_type],
    [operation] or [node_id]) passes the validation of the sort fields,
    since the name is among the column names of the query, but the store
    rejects the selection: a UNION can be ordered by its labels only.  The
    count has run by then, and the request ends in an error of the store
    instead of [BadParameters]. *)
Theorem query_events_union_unlabelled_sort (s : store) (rq : request)
    (f : string) :
  rq_should rq = true →
  unknown_sort_field unified_columns (rq_sort rq) = None →
  unknown_sort_field (labelled_names events_columns) (rq_sort rq) = Some f →
  ∃ cq q,
    _build_select_query
      (FiltersDict (<["execution_id" := [rq_execution_id rq]]>
                      {["type" := ["cloudify_event"; "cloudify_log"]]}))
      (mkPagination (default DEFAULT_SEARCH_SIZE (rq_size rq)) (rq_from rq))
      (rq_sort rq) [] = Ok q ∧
    _query_events s rq =
      ([CountStatement cq; SelectStatement q], StoreError).
Proof.
  intros Hshould Hsort Hlabel. unfold _query_events. rewrite Hshould.
  set (types := ["cloudify_event"; "cloudify_log"]).
  set (d := <["execution_id" := [rq_execution_id rq]]> _).
  set (p := mkPagination _ _).
  assert (Hd : d !! "type" = Some types).
  { subst d. rewrite lookup_insert_ne by done. by rewrite lookup_singleton_eq. }
  assert (Hev : "cloudify_event" ∈ types) by (by left).
  assert (Hlog : "cloudify_log" ∈ types) by (right; by left).
  destruct (count_query_scalar s d types []) as (cq & Hcq & Hscalar);
    [done..|].
  pose proof (build_select_query_run d types p (rq_sort rq) [] Hd Hev
                eq_refl (fun _ => eq_refl)) as Hq.
  rewrite Hsort, decide_True in Hq by done.
  destruct (resolve_sort_keys unified_columns (rq_sort rq) Hsort)
    as [keys Hkeys].
  destruct (execute_events_source s (bound_params p) d [])
    as (r1 & Hr1 & _).
  destruct (execute_logs_source s (bound_params p) d [])
    as (r2 & Hr2 & _).
  eexists cq, _. split; [exact Hq|].
  unfold run_queries. change (<["offset":=_]> _) with (bound_params p).
  rewrite Hcq, Hscalar, Hq. unfold Query_all. rewrite execute_eq.
  change (body_rows s (bound_params p) (select_plan ?q _))
    with (body_rows s (bound_params p) q).
  rewrite (body_rows_union _ _ _ _ r1 r2 Hr1 Hr2) by done.
  cbn [mbind option_bind].
  change (column_names (select_plan _ _)) with unified_columns.
  change (ordering (select_plan _ (rq_sort rq)))
    with (sort_keys (rq_sort rq)).
  rewrite Hkeys. cbn [mbind option_bind].
  change (entities (select_plan _ _)) with events_columns.
  change (is_union (from_union (select_plan _ _))) with true.
  by rewrite (not_orderable_in_union _ _ f Hkeys Hlabel).
Qed.

Lemma query_events_union_unlabelled_sort_witness :
  ∃ cq q,
    _build_select_query
      (FiltersDict (<["execution_id" := ["exec_1"]]>
                      {["type" := ["cloudify_event"; "cloudify_log"]]}))
      (mkPagination 10000 0)
      [("@timestamp", "asc"); ("message", "asc")] [] = Ok q ∧
    _query_events sample_store message_sort_request =
      ([CountStatement cq; SelectStatement q], StoreError).
Proof.
  apply (query_events_union_unlabelled_sort sample_store message_sort_request
           "message"); reflexivity.
Defined.
